(** * The Predictive Triadic Consensus Engine (PTCE), embedded in Rocq

    A shallow embedding of [src/services/ptce-service.ts] (class
    [PTCEService]) and of the types of [src/types/ptce.types.ts].

    Numbers.  A JavaScript number is an IEEE 754 double, and two models
    of it are used.  [number] is the exact one: a real (the finite
    values, with exact arithmetic), one of the two infinities, or NaN.
    It carries the whole pipeline, [Math.exp] and [Math.random]
    included.  Rounding, overflow to an infinity and the sign of zero
    are not in it; the special values are, because the code divides by
    a sum of confidences that can be zero and JavaScript answers that
    with NaN or an infinity instead of raising.  [Double], the last part
    of the file, is the double itself, Rocq's primitive binary64 float:
    the discussion stage and the determination, whose operations are
    [+], [-], [*], [/] and [>] alone, are embedded a second time over
    it, and what depends on rounding is stated there.

    Objects.  A JavaScript object indexed by model id is a [gmap string]
    of its own properties.  The [ConsensusScores] object holds the
    per-model entries and the property [confidence] side by side, so its
    values are tagged.  An object the code fills by assigning numbers
    never gets the key ["__proto__"] ([assign_number]).  A key that an
    object lacks but inherits from [Object.prototype] reads as the
    inherited member: [Double.property] has that case; the exact model
    reads every missing key as [undefined], and what is stated of a
    missing key there excludes the inherited names.

    Exceptions.  A function that can raise returns a [js_result].

    Names.  Fields keep their names; where two interfaces share one
    ([confidence] and [reasoning] of [LLMEvaluation], [DiscussionResults]
    and [PTCEResult]) the later ones are prefixed: [discussion_reasoning],
    [result_confidence], [result_reasoning].  [DetailedPTCEResult]
    extends [PTCEResult]: its inherited fields are its [base].

    Not modelled: [logInteraction] and [console.log], which append to the
    interaction log and print; no stage reads the log back.  The
    [reasoning] text of the discussion is kept as its branch and the
    variances it lists, without the rendering of [toFixed]. *)

From Stdlib Require Import Reals Lra.
From Stdlib Require Floats.
From stdpp Require Import gmap strings list.

#[local] Set Warnings "-clear-no-such-hyp".
#[local] Set Warnings "-inexact-float".

(** ** JavaScript numbers *)

Inductive number : Type :=
| Fin (r : R)
| Infinity (negative : bool)
| NaN.

Definition Rnegative (r : R) : bool :=
  if Rlt_dec r 0 then true else false.

Definition num_neg (x : number) : number :=
  match x with
  | Fin r => Fin (- r)
  | Infinity s => Infinity (negb s)
  | NaN => NaN
  end.

Definition num_add (x y : number) : number :=
  match x, y with
  | NaN, _ | _, NaN => NaN
  | Fin a, Fin b => Fin (a + b)
  | Fin _, Infinity s | Infinity s, Fin _ => Infinity s
  | Infinity s, Infinity t => if Bool.eqb s t then Infinity s else NaN
  end.

Definition num_sub (x y : number) : number := num_add x (num_neg y).

Definition num_mul (x y : number) : number :=
  match x, y with
  | NaN, _ | _, NaN => NaN
  | Fin a, Fin b => Fin (a * b)
  | Fin a, Infinity s | Infinity s, Fin a =>
      if Req_dec_T a 0 then NaN else Infinity (xorb s (Rnegative a))
  | Infinity s, Infinity t => Infinity (xorb s t)
  end.

(** [x / y]: a zero divisor gives NaN for [0 / 0] and an infinity
    otherwise; nothing is raised. *)
Definition num_div (x y : number) : number :=
  match x, y with
  | NaN, _ | _, NaN => NaN
  | Fin a, Fin b =>
      if Req_dec_T b 0
      then (if Req_dec_T a 0 then NaN else Infinity (Rnegative a))
      else Fin (a / b)
  | Fin _, Infinity _ => Fin 0
  | Infinity s, Fin b => Infinity (xorb s (Rnegative b))
  | Infinity _, Infinity _ => NaN
  end.

(** [x > y]: false as soon as one side is NaN. *)
Definition num_gt (x y : number) : bool :=
  match x, y with
  | NaN, _ | _, NaN => false
  | Fin a, Fin b => if Rlt_dec b a then true else false
  | Fin _, Infinity s => s
  | Infinity s, Fin _ => negb s
  | Infinity s, Infinity t => negb s && t
  end.

Definition Math_abs (x : number) : number :=
  match x with
  | Fin r => Fin (Rabs r)
  | Infinity _ => Infinity false
  | NaN => NaN
  end.

(** [Math.min(x, y)]: NaN if either argument is. *)
Definition Math_min (x y : number) : number :=
  match x, y with
  | NaN, _ | _, NaN => NaN
  | _, _ => if num_gt x y then y else x
  end.

(** [Math.pow(x, 2)]. *)
Definition Math_pow2 (x : number) : number := num_mul x x.

Definition Math_exp (x : number) : number :=
  match x with
  | Fin r => Fin (exp r)
  | Infinity false => Infinity false
  | Infinity true => Fin 0
  | NaN => NaN
  end.

(** Truthiness of a number, as [x || d] tests it: 0 and NaN are falsy. *)
Definition truthy (x : number) : bool :=
  match x with
  | Fin r => if Req_dec_T r 0 then false else true
  | Infinity _ => true
  | NaN => false
  end.

Definition num_or (x d : number) : number := if truthy x then x else d.

(** What [JSON.parse(JSON.stringify(x))] leaves of a number: a finite
    value is kept; NaN and the infinities become [null], rendered here as
    [Fin 0], the value every later arithmetic use coerces [null] to. *)
Definition JSON_roundtrip (x : number) : number :=
  match x with
  | Fin r => Fin r
  | _ => Fin 0
  end.

Declare Scope js_scope.
Delimit Scope js_scope with js.
Bind Scope js_scope with number.
Notation "x + y" := (num_add x y) : js_scope.
Notation "x - y" := (num_sub x y) : js_scope.
Notation "x * y" := (num_mul x y) : js_scope.
Notation "x / y" := (num_div x y) : js_scope.
Notation "x >? y" := (num_gt x y) (at level 70) : js_scope.
Notation "x || y" := (num_or x y) : js_scope.

(** [xs.reduce((sum, x) => sum + x, 0)]. *)
Definition sum_numbers (xs : list number) : number :=
  foldl num_add (Fin 0) xs.

(** ** Exceptions *)

Inductive js_error : Type :=
| TypeError
| Error (message : string).

Inductive js_result (A : Type) : Type :=
| Return (a : A)
| Throw (e : js_error).
Arguments Return {A} a.
Arguments Throw {A} e.

Definition bind {A B} (m : js_result A) (k : A -> js_result B) : js_result B :=
  match m with
  | Return a => k a
  | Throw e => Throw e
  end.

Notation "'let*' x ':=' m 'in' k" := (bind m (fun x => k))
  (at level 10, x name, m at level 100, k at level 200).

(** [o.p] where [o] was read from an object that may lack the key:
    reading a property of [undefined] raises a TypeError.  This is the
    reading of a key that is no property of the object at all; a key the
    object lacks but inherits (one of [Object_prototype]) reads as the
    inherited member and raises nothing, and the statements below that
    depend on a missing key exclude those names. *)
Definition defined {A} (o : option A) : js_result A :=
  match o with
  | Some a => Return a
  | None => Throw TypeError
  end.

(** ** Types ([ptce.types.ts]) *)

Record Attributes : Type := {
  attack_power : number;
  defense : number;
  speed_agility : number;
  strategy : number;
  endurance : number
}.

Record Model : Type := {
  id : string;
  name : string;
  prompt : string;
  finalThumbnailUrl : string;
  finalModelUrl : string;
  video_url : string;
  texture_urls : list string;
  attributes : Attributes;
  ip_address : string;
  secretKey : string
}.

(** [LLMEvaluation], which [LLMResponse] repeats field for field. *)
Record LLMEvaluation : Type := {
  score : number;
  confidence : number;
  reasoning : string
}.

(** [ModelEvaluation]: model id to evaluation. *)
Record InitialEvaluations : Type := {
  llm1 : gmap string LLMEvaluation;
  llm2 : gmap string LLMEvaluation;
  llm3 : gmap string LLMEvaluation
}.

(** The two sentences [facilitateInteractiveDiscussion] can write, each
    with the variance map it prints. *)
Inductive DiscussionReasoning : Type :=
| DisagreementRefined (varianceByModel : gmap string number)
| AgreementAchieved (varianceByModel : gmap string number).

Record DiscussionResults : Type := {
  evaluations : InitialEvaluations;
  discussion_reasoning : DiscussionReasoning
}.

Record ModelConsensusScore : Type := {
  individualScores : list number;
  confidenceScores : list number;
  weightedScores : list number;
  finalScore : number
}.

(** A property of the [ConsensusScores] object: a model's entry, or the
    number stored under [confidence].  Both live in one object, so a
    model whose id is ["confidence"] shares its key with that number. *)
Inductive ConsensusValue : Type :=
| Entry (e : ModelConsensusScore)
| Num (x : number).

Inductive AttributeType : Type :=
| creativity | technical | performance | overall.

Record LLMRequest : Type := {
  modelId : string;
  modelName : string;
  modelAttributes : Attributes;
  evaluationType : AttributeType
}.

Record PTCEResult : Type := {
  winner : Model;
  scores : gmap string number;
  result_confidence : number;
  result_reasoning : DiscussionReasoning
}.

(** [DetailedPTCEResult] without its [interactions] log. *)
Record DetailedPTCEResult : Type := {
  base : PTCEResult;
  initialEvaluations : InitialEvaluations;
  discussionResults : DiscussionResults;
  consensusScores : gmap string ConsensusValue;
  predictiveOutcomes : gmap string number
}.

(** [{ [k1]: v1, [k2]: v2 }]: a later equal key replaces the earlier.
    A computed key of an object literal is always an own property,
    ["__proto__"] included. *)
Definition object2 {A} (k1 : string) (v1 : A) (k2 : string) (v2 : A)
  : gmap string A :=
  <[k2 := v2]> (<[k1 := v1]> ∅).

(** [o[k] = x] where [x] is a number and [o] an object that began as
    [{}] and is filled by such assignments only.  Every key becomes an
    own property but ["__proto__"]: that name is the accessor which [o]
    inherits from [Object.prototype], and its setter ignores a value that
    is not an object, so nothing is stored. *)
Definition assign_number {A} (k : string) (x : A) (o : gmap string A)
  : gmap string A :=
  if decide (k = "__proto__") then o else <[k := x]> o.

(** The property names a plain object inherits from [Object.prototype]. *)
Definition Object_prototype : list string :=
  [ "__proto__"; "constructor"; "hasOwnProperty"; "isPrototypeOf";
    "propertyIsEnumerable"; "toLocaleString"; "toString"; "valueOf";
    "__defineGetter__"; "__defineSetter__"; "__lookupGetter__";
    "__lookupSetter__" ].

(** ** The evaluation source and the random generator

    [openAIService.evaluateModel] is the external evaluation source: the
    [n]-th call of a run, made with a request, resolves to an evaluation
    or fails.  [Math.random] is the stream of its draws. *)

Definition EvaluationSource : Type := nat -> LLMRequest -> option LLMEvaluation.
Definition RandomSource : Type := nat -> R.

Definition request (model : Model) (evaluationType : AttributeType) : LLMRequest :=
  {| modelId := id model;
     modelName := name model;
     modelAttributes := attributes model;
     evaluationType := evaluationType |}.

(** ** Utility functions *)

Definition array_length {A} (xs : list A) : number := Fin (INR (length xs)).

Definition evaluateAttribute (model : Model) (attributeType : AttributeType)
    (min max : number) : number :=
  let a := attributes model in
  let baseScore :=
    match attributeType with
    | creativity => (strategy a + endurance a) / Fin 2
    | technical => (defense a + speed_agility a) / Fin 2
    | performance => (attack_power a + speed_agility a) / Fin 2
    | overall =>
        (attack_power a + defense a + speed_agility a + strategy a
         + endurance a) / Fin 5
    end%js in
  (min + (baseScore / Fin 100) * (max - min))%js.

(** [0.7 + Math.random() * 0.25], on the [k]-th draw. *)
Definition generateConfidenceScore (random : RandomSource) (k : nat) : number :=
  (Fin 0.7 + Fin (random k) * Fin 0.25)%js.

Definition calculateVariance (scores : list number) : number :=
  let mean := (sum_numbers scores / array_length scores)%js in
  let squaredDifferences := (fun score => Math_pow2 (score - mean)%js) <$> scores in
  (sum_numbers squaredDifferences / array_length scores)%js.

Definition level (x : number) : string :=
  if (x >? Fin 70)%js then "high" else "moderate".

(** ** Initial evaluation *)

Definition performSimulatedEvaluations (random : RandomSource)
    (model1 model2 : Model) : InitialEvaluations :=
  let llm1Evaluation :=
    object2
      (id model1)
      {| score := evaluateAttribute model1 creativity (Fin 5) (Fin 10);
         confidence := generateConfidenceScore random 0;
         reasoning := "Model " +:+ name model1 +:+ " shows "
                      +:+ level (strategy (attributes model1)) +:+ " creativity." |}
      (id model2)
      {| score := evaluateAttribute model2 creativity (Fin 5) (Fin 10);
         confidence := generateConfidenceScore random 1;
         reasoning := "Model " +:+ name model2 +:+ " shows "
                      +:+ level (strategy (attributes model2)) +:+ " creativity." |} in
  let llm2Evaluation :=
    object2
      (id model1)
      {| score := evaluateAttribute model1 technical (Fin 5) (Fin 10);
         confidence := generateConfidenceScore random 2;
         reasoning := "Model " +:+ name model1 +:+ " demonstrates "
                      +:+ level (defense (attributes model1))
                      +:+ " technical stability." |}
      (id model2)
      {| score := evaluateAttribute model2 technical (Fin 5) (Fin 10);
         confidence := generateConfidenceScore random 3;
         reasoning := "Model " +:+ name model2 +:+ " demonstrates "
                      +:+ level (defense (attributes model2))
                      +:+ " technical stability." |} in
  let llm3Evaluation :=
    object2
      (id model1)
      {| score := evaluateAttribute model1 performance (Fin 5) (Fin 10);
         confidence := generateConfidenceScore random 4;
         reasoning := "Model " +:+ name model1 +:+ " performs with "
                      +:+ level (attack_power (attributes model1))
                      +:+ " effectiveness." |}
      (id model2)
      {| score := evaluateAttribute model2 performance (Fin 5) (Fin 10);
         confidence := generateConfidenceScore random 5;
         reasoning := "Model " +:+ name model2 +:+ " performs with "
                      +:+ level (attack_power (attributes model2))
                      +:+ " effectiveness." |} in
  {| llm1 := llm1Evaluation; llm2 := llm2Evaluation; llm3 := llm3Evaluation |}.

(** The body of the [try]: six calls in sequence, [None] as soon as one
    of them fails. *)
Definition sourceEvaluations (evaluateModel : EvaluationSource)
    (model1 model2 : Model) : option InitialEvaluations :=
  llm1Model1Eval ← evaluateModel 0 (request model1 creativity);
  llm1Model2Eval ← evaluateModel 1 (request model2 creativity);
  llm2Model1Eval ← evaluateModel 2 (request model1 technical);
  llm2Model2Eval ← evaluateModel 3 (request model2 technical);
  llm3Model1Eval ← evaluateModel 4 (request model1 performance);
  llm3Model2Eval ← evaluateModel 5 (request model2 performance);
  Some {| llm1 := object2 (id model1) llm1Model1Eval (id model2) llm1Model2Eval;
          llm2 := object2 (id model1) llm2Model1Eval (id model2) llm2Model2Eval;
          llm3 := object2 (id model1) llm3Model1Eval (id model2) llm3Model2Eval |}.

Definition performInitialEvaluations (evaluateModel : EvaluationSource)
    (random : RandomSource) (model1 model2 : Model) : InitialEvaluations :=
  match sourceEvaluations evaluateModel model1 model2 with
  | Some evaluations => evaluations
  | None => performSimulatedEvaluations random model1 model2
  end.

(** ** Discussion *)

(** The three slot scores of a model; reading a slot that lacks the
    model raises. *)
Definition slotScores (e : InitialEvaluations) (modelId : string)
  : js_result (list number) :=
  let* e1 := defined (llm1 e !! modelId) in
  let* e2 := defined (llm2 e !! modelId) in
  let* e3 := defined (llm3 e !! modelId) in
  Return [score e1; score e2; score e3].

(** The loop [for (const modelId of Object.keys(x.llm1))], its body
    receiving the accumulated state. *)
Definition forKeys {A B} (m : gmap string A)
    (body : string -> B -> js_result B) (init : B) : js_result B :=
  map_fold (fun modelId _ acc => let* b := acc in body modelId b) (Return init) m.

Definition varianceByModel_of (initial : InitialEvaluations)
  : js_result (gmap string number) :=
  forKeys (llm1 initial)
    (fun modelId varianceByModel =>
       let* scores := slotScores initial modelId in
       Return (assign_number modelId (calculateVariance scores) varianceByModel))
    ∅.

Definition deepCopyEvaluation (e : LLMEvaluation) : LLMEvaluation :=
  {| score := JSON_roundtrip (score e);
     confidence := JSON_roundtrip (confidence e);
     reasoning := reasoning e |}.

(** [JSON.parse(JSON.stringify(initialEvaluations))]. *)
Definition deepCopy (e : InitialEvaluations) : InitialEvaluations :=
  {| llm1 := deepCopyEvaluation <$> llm1 e;
     llm2 := deepCopyEvaluation <$> llm2 e;
     llm3 := deepCopyEvaluation <$> llm3 e |}.

(** One slot of one model in the round: the score is computed from the
    initial score, the confidence is raised in place on the copy. *)
Definition adjustEvaluation (initialScore mean : number) (adjusted : LLMEvaluation)
  : LLMEvaluation :=
  let adjustmentFactor := Fin 0.4 in
  {| score := (initialScore * (Fin 1 - adjustmentFactor) + mean * adjustmentFactor)%js;
     confidence := (confidence adjusted + (Fin 1 - confidence adjusted) * Fin 0.3)%js;
     reasoning := reasoning adjusted |}.

Definition simulateDiscussionRound (initialEvaluations : InitialEvaluations)
  : js_result InitialEvaluations :=
  forKeys (llm1 initialEvaluations)
    (fun modelId adjustedEvaluations =>
       let* scores := slotScores initialEvaluations modelId in
       let mean := (sum_numbers scores / array_length scores)%js in
       let* i1 := defined (llm1 initialEvaluations !! modelId) in
       let* i2 := defined (llm2 initialEvaluations !! modelId) in
       let* i3 := defined (llm3 initialEvaluations !! modelId) in
       let* a1 := defined (llm1 adjustedEvaluations !! modelId) in
       let* a2 := defined (llm2 adjustedEvaluations !! modelId) in
       let* a3 := defined (llm3 adjustedEvaluations !! modelId) in
       Return
         {| llm1 := <[modelId := adjustEvaluation (score i1) mean a1]>
                      (llm1 adjustedEvaluations);
            llm2 := <[modelId := adjustEvaluation (score i2) mean a2]>
                      (llm2 adjustedEvaluations);
            llm3 := <[modelId := adjustEvaluation (score i3) mean a3]>
                      (llm3 adjustedEvaluations) |})
    (deepCopy initialEvaluations).

Definition highDisagreement (varianceByModel : gmap string number) : bool :=
  bool_decide (map_Exists (fun _ variance => (variance >? Fin 2)%js = true) varianceByModel).

Definition facilitateInteractiveDiscussion (initialEvaluations : InitialEvaluations)
  : js_result DiscussionResults :=
  let* varianceByModel := varianceByModel_of initialEvaluations in
  if highDisagreement varianceByModel then
    let* finalEvaluations := simulateDiscussionRound initialEvaluations in
    Return {| evaluations := finalEvaluations;
              discussion_reasoning := DisagreementRefined varianceByModel |}
  else
    Return {| evaluations := initialEvaluations;
              discussion_reasoning := AgreementAchieved varianceByModel |}.

(** ** Consensus *)

Definition consensusEntry (evaluations : InitialEvaluations) (modelId : string)
  : js_result ModelConsensusScore :=
  let* e1 := defined (llm1 evaluations !! modelId) in
  let* e2 := defined (llm2 evaluations !! modelId) in
  let* e3 := defined (llm3 evaluations !! modelId) in
  let scores := [score e1; score e2; score e3] in
  let confidences := [confidence e1; confidence e2; confidence e3] in
  let weightedScores := zip_with num_mul scores confidences in
  let confidenceSum := sum_numbers confidences in
  let finalScore := (sum_numbers weightedScores / confidenceSum)%js in
  Return {| individualScores := scores;
            confidenceScores := confidences;
            weightedScores := weightedScores;
            finalScore := finalScore |}.

(** [result[id].finalScore]: a missing key raises; the number stored
    under [confidence] has no such property, and the [undefined] read
    there is NaN in arithmetic. *)
Definition get_finalScore (result : gmap string ConsensusValue) (modelId : string)
  : js_result number :=
  let* v := defined (result !! modelId) in
  Return (match v with Entry e => finalScore e | Num _ => NaN end).

Fixpoint mapM_js {A B} (f : A -> js_result B) (xs : list A) : js_result (list B) :=
  match xs with
  | [] => Return []
  | x :: xs' => let* y := f x in let* ys := mapM_js f xs' in Return (y :: ys)
  end.

(** [xs[i]] used as a number: [undefined] out of range. *)
Definition at_index (xs : list number) (i : nat) : number := default NaN (xs !! i).

Definition calculateConsensusScores (discussionResults : DiscussionResults)
    (modelIds : list string) : js_result (gmap string ConsensusValue) :=
  let evaluations := evaluations discussionResults in
  let* result :=
    foldl (fun acc modelId =>
             let* result := acc in
             let* entry := consensusEntry evaluations modelId in
             Return (<[modelId := Entry entry]> result))
          (Return ∅) modelIds in
  if decide (2 <= length modelIds)%nat then
    let* scores := mapM_js (get_finalScore result) modelIds in
    let scoreDifference := Math_abs (at_index scores 0 - at_index scores 1)%js in
    Return (<["confidence" := Num (Math_min (Fin 1) (scoreDifference / Fin 2 + Fin 0.5)%js)]>
              result)
  else
    Return (<["confidence" := Num (Fin 0.7)]> result).

(** ** Prediction *)

Definition generateFeatureVector (model : Model) : list number :=
  let a := attributes model in
  [ attack_power a / Fin 100;
    defense a / Fin 100;
    speed_agility a / Fin 100;
    strategy a / Fin 100;
    endurance a / Fin 100;
    (attack_power a + speed_agility a) / Fin 200;
    (defense a + endurance a) / Fin 200;
    strategy a / Fin 100 ]%js.

Definition weights : list number :=
  [Fin 0.2; Fin 0.15; Fin 0.15; Fin 0.25; Fin 0.15; Fin 0.3; Fin 0.25; Fin 0.4].

Definition simulateNeuralNetworkPrediction (weightedFeatures : list number) : number :=
  let weightedSum :=
    sum_numbers
      (imap (fun index feature =>
               (feature * at_index weights (index mod length weights))%js)
            weightedFeatures) in
  (Fin 1 / (Fin 1 + Math_exp (num_neg weightedSum)))%js.

(** [consensusScores[id].confidenceScores], then indexed: a missing key
    raises at once, and so does indexing the [undefined] that the number
    under [confidence] yields. *)
Definition get_confidenceScores (consensusScores : gmap string ConsensusValue)
    (modelId : string) : js_result (list number) :=
  let* v := defined (consensusScores !! modelId) in
  match v with
  | Entry e => Return (confidenceScores e)
  | Num _ => Throw TypeError
  end.

Definition generatePredictiveOutcomes (model1 model2 : Model)
    (consensusScores : gmap string ConsensusValue) : js_result (gmap string number) :=
  foldl (fun acc model =>
           let* result := acc in
           let featureVector := generateFeatureVector model in
           let* confidenceScores := get_confidenceScores consensusScores (id model) in
           let weightedFeatures :=
             imap (fun index feature =>
                     (feature * at_index confidenceScores (index mod 3))%js)
                  featureVector in
           let prediction := simulateNeuralNetworkPrediction weightedFeatures in
           Return (assign_number (id model) prediction result))
        (Return ∅) [model1; model2].

(** ** Determination *)

(** The weighted combination the source writes once per model. *)
Definition blend (consensusFinalScore predictiveOutcome : number) : number :=
  (Fin 0.7 * consensusFinalScore + Fin 0.3 * predictiveOutcome * Fin 10)%js.

(** [predictiveOutcomes[id]] used as a number: [undefined] for a key
    that is no property, the inherited member for ["__proto__"], and
    either is NaN in arithmetic. *)
Definition outcome (predictiveOutcomes : gmap string number) (modelId : string) : number :=
  default NaN (predictiveOutcomes !! modelId).

Definition determineWinnerModel (model1 model2 : Model)
    (consensusScores : gmap string ConsensusValue)
    (predictiveOutcomes : gmap string number) : js_result Model :=
  let* consensus1 := get_finalScore consensusScores (id model1) in
  let* consensus2 := get_finalScore consensusScores (id model2) in
  let model1FinalScore := blend consensus1 (outcome predictiveOutcomes (id model1)) in
  let model2FinalScore := blend consensus2 (outcome predictiveOutcomes (id model2)) in
  Return (if (model1FinalScore >? model2FinalScore)%js then model1 else model2).

(** ** The two entry points *)

(** [consensusScores.confidence || 0.7].  [calculateConsensusScores]
    always stores a number under [confidence] last. *)
Definition confidence_or_default (consensusScores : gmap string ConsensusValue) : number :=
  match consensusScores !! "confidence" with
  | Some (Num x) => (x || Fin 0.7)%js
  | _ => Fin 0.7
  end.

Definition failure : js_error := Error "Failed to determine winner using PTCE algorithm".

(** [try { body } catch (err) { throw new Error(...) }]. *)
Definition try_catch {A} (body : js_result A) : js_result A :=
  match body with
  | Return a => Return a
  | Throw _ => Throw failure
  end.

Definition determineWinnerWithDetails (evaluateModel : EvaluationSource)
    (random : RandomSource) (model1 model2 : Model) : js_result DetailedPTCEResult :=
  try_catch (
    let evaluations := performInitialEvaluations evaluateModel random model1 model2 in
    let* discussionResults := facilitateInteractiveDiscussion evaluations in
    let* consensusScores :=
      calculateConsensusScores discussionResults [id model1; id model2] in
    let* predictiveOutcomes :=
      generatePredictiveOutcomes model1 model2 consensusScores in
    let* winner := determineWinnerModel model1 model2 consensusScores predictiveOutcomes in
    let* model1Score := get_finalScore consensusScores (id model1) in
    let* model2Score := get_finalScore consensusScores (id model2) in
    Return {| base :=
                {| winner := winner;
                   scores := object2 (id model1) model1Score (id model2) model2Score;
                   result_confidence := confidence_or_default consensusScores;
                   result_reasoning := discussion_reasoning discussionResults |};
              initialEvaluations := evaluations;
              discussionResults := discussionResults;
              consensusScores := consensusScores;
              predictiveOutcomes := predictiveOutcomes |}).

Definition determineWinner (evaluateModel : EvaluationSource)
    (random : RandomSource) (model1 model2 : Model) : js_result PTCEResult :=
  try_catch (
    let evaluations := performInitialEvaluations evaluateModel random model1 model2 in
    let* discussionResults := facilitateInteractiveDiscussion evaluations in
    let* consensusScores :=
      calculateConsensusScores discussionResults [id model1; id model2] in
    let* predictiveOutcomes :=
      generatePredictiveOutcomes model1 model2 consensusScores in
    let* winner := determineWinnerModel model1 model2 consensusScores predictiveOutcomes in
    let* model1Score := get_finalScore consensusScores (id model1) in
    let* model2Score := get_finalScore consensusScores (id model2) in
    Return {| winner := winner;
              scores := object2 (id model1) model1Score (id model2) model2Score;
              result_confidence := confidence_or_default consensusScores;
              result_reasoning := discussion_reasoning discussionResults |}).

(** * Properties *)

(** ** Arithmetic on finite numbers *)

Lemma div_Fin (a b : R) : b <> 0%R -> (Fin a / Fin b)%js = Fin (a / b).
Proof. intros Hb. unfold num_div. destruct (Req_dec_T b 0); [lra | reflexivity]. Qed.

Lemma gt_Fin_true (a b : R) : (b < a)%R -> (Fin a >? Fin b)%js = true.
Proof. intros H. unfold num_gt. destruct (Rlt_dec b a); [reflexivity | lra]. Qed.

Lemma gt_Fin_false (a b : R) : (a <= b)%R -> (Fin a >? Fin b)%js = false.
Proof. intros H. unfold num_gt. destruct (Rlt_dec b a); [lra | reflexivity]. Qed.

Lemma gt_irrefl (x : number) : (x >? x)%js = false.
Proof.
  destruct x as [r | [] | ]; try reflexivity.
  apply gt_Fin_false. lra.
Qed.

Lemma min_Fin (a b : R) : Math_min (Fin a) (Fin b) = Fin (Rmin a b).
Proof.
  unfold Math_min, num_gt, Rmin.
  destruct (Rlt_dec b a), (Rle_dec a b); try reflexivity; lra.
Qed.

Lemma sum3_Fin (a b c : R) : sum_numbers [Fin a; Fin b; Fin c] = Fin (a + b + c).
Proof. cbn. f_equal. lra. Qed.

Lemma array_length3 {A} (x y z : A) : array_length [x; y; z] = Fin 3.
Proof. unfold array_length. cbn. f_equal. lra. Qed.

(** Population variance of three reals. *)
Definition variance3 (s1 s2 s3 : R) : R :=
  let m := ((s1 + s2 + s3) / 3)%R in
  (((s1 - m) * (s1 - m) + (s2 - m) * (s2 - m) + (s3 - m) * (s3 - m)) / 3)%R.

Definition mean3 (s1 s2 s3 : R) : R := ((s1 + s2 + s3) / 3)%R.

Lemma mean_Fin (s1 s2 s3 : R) :
  (sum_numbers [Fin s1; Fin s2; Fin s3] / array_length [Fin s1; Fin s2; Fin s3])%js
  = Fin (mean3 s1 s2 s3).
Proof. rewrite sum3_Fin, array_length3, div_Fin by lra. reflexivity. Qed.

Lemma calculateVariance_Fin (s1 s2 s3 : R) :
  calculateVariance [Fin s1; Fin s2; Fin s3] = Fin (variance3 s1 s2 s3).
Proof.
  unfold calculateVariance. rewrite mean_Fin, array_length3.
  cbn [fmap list_fmap Math_pow2 num_sub num_neg num_add num_mul].
  rewrite sum3_Fin, div_Fin by lra.
  reflexivity.
Qed.


(** ** The loops over model ids *)

(** An invariant carried through [forKeys]: it holds of the initial
    state and no key visited, each iteration succeeds and extends it by
    the key it visits. *)
Lemma forKeys_invariant {A B} (m : gmap string A) (body : string -> B -> js_result B)
    (init : B) (I : gset string -> B -> Prop) :
  I ∅ init ->
  (forall k visited b, k ∈ dom m -> k ∉ visited -> I visited b ->
     exists b', body k b = Return b' /\ I ({[k]} ∪ visited) b') ->
  exists b, forKeys m body init = Return b /\ I (dom m) b.
Proof.
  intros Hinit Hstep. unfold forKeys.
  cut (forall m', m' ⊆ m ->
         exists b, map_fold (fun modelId _ acc => let* b := acc in body modelId b)
                     (Return init) m' = Return b /\ I (dom m') b).
  { intros H. apply H. reflexivity. }
  intros m'.
  induction m' as [| k x m' Hk Hfold IH] using map_first_key_ind; intros Hsub.
  - rewrite map_fold_empty, dom_empty_L. eauto.
  - rewrite map_fold_insert_first_key by assumption.
    destruct IH as (b & -> & Hb).
    { etrans; [apply insert_subseteq; exact Hk | exact Hsub]. }
    destruct (Hstep k (dom m') b) as (b' & Hbody & Hb'); [| | exact Hb |].
    + apply elem_of_dom. exists x.
      eapply lookup_weaken; [apply lookup_insert_eq | exact Hsub].
    + by apply not_elem_of_dom.
    + cbn. rewrite Hbody, dom_insert_L. eauto.
Qed.

(** A model is evaluated in all three slots. *)
Definition has_slots (e : InitialEvaluations) (k : string) : Prop :=
  is_Some (llm1 e !! k) /\ is_Some (llm2 e !! k) /\ is_Some (llm3 e !! k).

(** The shape of an evaluation set: the three slots cover the same models. *)
Definition complete (e : InitialEvaluations) : Prop :=
  dom (llm2 e) = dom (llm1 e) /\ dom (llm3 e) = dom (llm1 e).

Lemma complete_has_slots (e : InitialEvaluations) (k : string) :
  complete e -> k ∈ dom (llm1 e) -> has_slots e k.
Proof.
  intros [H2 H3] Hk. unfold has_slots.
  rewrite <- !elem_of_dom, H2, H3. auto.
Qed.

Lemma slotScores_Return (e : InitialEvaluations) (k : string) (e1 e2 e3 : LLMEvaluation) :
  llm1 e !! k = Some e1 -> llm2 e !! k = Some e2 -> llm3 e !! k = Some e3 ->
  slotScores e k = Return [score e1; score e2; score e3].
Proof. intros H1 H2 H3. unfold slotScores. rewrite H1, H2, H3. reflexivity. Qed.

(** The variance loop returns, with one variance per model of slot 1
    that is not named ["__proto__"]. *)
Lemma varianceByModel_of_Return (e : InitialEvaluations) :
  complete e ->
  exists vm,
    varianceByModel_of e = Return vm
    /\ dom vm = dom (llm1 e) ∖ {["__proto__"]}
    /\ forall k v, vm !! k = Some v ->
         exists l, slotScores e k = Return l /\ v = calculateVariance l.
Proof.
  intros Hc. unfold varianceByModel_of.
  destruct (forKeys_invariant (llm1 e)
              (fun modelId (varianceByModel : gmap string number) =>
                 let* scores := slotScores e modelId in
                 Return (assign_number modelId (calculateVariance scores) varianceByModel))
              ∅
              (fun visited vm =>
                 dom vm = visited ∖ {["__proto__"]}
                 /\ forall k v, vm !! k = Some v ->
                      exists l, slotScores e k = Return l /\ v = calculateVariance l))
    as (vm & Hvm & Hdom & Hval).
  - split; [rewrite dom_empty_L; set_solver
           | intros k v; rewrite lookup_empty; discriminate].
  - intros k visited vm Hk _ [Hdom Hval].
    destruct (complete_has_slots e k Hc Hk) as ([e1 H1] & [e2 H2] & [e3 H3]).
    rewrite (slotScores_Return e k e1 e2 e3 H1 H2 H3). cbn.
    eexists; split; [reflexivity |]. unfold assign_number.
    destruct (decide (k = "__proto__")) as [-> | Hproto].
    + split; [rewrite Hdom; set_solver | exact Hval].
    + split.
      * rewrite dom_insert_L, Hdom. set_solver.
      * intros k' v. rewrite lookup_insert. case_decide as Hkk.
        -- subst k'. intros [= <-]. eexists. split; [| reflexivity].
           apply slotScores_Return; assumption.
        -- apply Hval.
  - exists vm. auto.
Qed.

(** The mean of a model's three slot scores, as the round computes it. *)
Definition meanScore (e : InitialEvaluations) (k : string) : number :=
  match slotScores e k with
  | Return scores => (sum_numbers scores / array_length scores)%js
  | Throw _ => NaN
  end.

(** What the round makes of one evaluation. *)
Definition roundEvaluation (mean : number) (e : LLMEvaluation) : LLMEvaluation :=
  adjustEvaluation (score e) mean (deepCopyEvaluation e).

Definition roundInvariant (e : InitialEvaluations) (visited : gset string)
    (adjusted : InitialEvaluations) : Prop :=
  forall k,
    let f := if decide (k ∈ visited) then roundEvaluation (meanScore e k)
             else deepCopyEvaluation in
    llm1 adjusted !! k = f <$> llm1 e !! k
    /\ llm2 adjusted !! k = f <$> llm2 e !! k
    /\ llm3 adjusted !! k = f <$> llm3 e !! k.

Lemma simulateDiscussionRound_Return (e : InitialEvaluations) :
  complete e ->
  exists adjusted,
    simulateDiscussionRound e = Return adjusted
    /\ roundInvariant e (dom (llm1 e)) adjusted.
Proof.
  intros Hc. unfold simulateDiscussionRound.
  apply (forKeys_invariant (llm1 e) _ (deepCopy e) (roundInvariant e)).
  - intros k. cbn. rewrite decide_False by set_solver.
    rewrite !lookup_fmap. auto.
  - intros k visited adjusted Hk Hnew Hinv.
    destruct (complete_has_slots e k Hc Hk) as ([e1 H1] & [e2 H2] & [e3 H3]).
    destruct (Hinv k) as (A1 & A2 & A3). cbn in A1, A2, A3.
    rewrite decide_False in A1, A2, A3 by assumption.
    rewrite H1 in A1. rewrite H2 in A2. rewrite H3 in A3. cbn in A1, A2, A3.
    rewrite (slotScores_Return e k e1 e2 e3 H1 H2 H3).
    rewrite H1, H2, H3, A1, A2, A3. cbn.
    eexists; split; [reflexivity |].
    intros k'. cbn. rewrite !lookup_insert.
    destruct (decide (k = k')) as [<- | Hne].
    + rewrite decide_True by (apply elem_of_union_l, elem_of_singleton; reflexivity).
      unfold meanScore. rewrite (slotScores_Return e k e1 e2 e3 H1 H2 H3).
      rewrite H1, H2, H3. auto.
    + destruct (Hinv k') as (B1 & B2 & B3). cbn in B1, B2, B3.
      destruct (decide (k' ∈ visited)) as [Hin | Hout].
      * rewrite decide_True by set_solver. auto.
      * rewrite decide_False
          by (intros [Heq%elem_of_singleton | Hv]%elem_of_union; congruence).
        auto.
Qed.

(** ** The discussion stage *)

Lemma highDisagreement_true (vm : gmap string number) :
  highDisagreement vm = true
  <-> exists k v, vm !! k = Some v /\ (v >? Fin 2)%js = true.
Proof. unfold highDisagreement. rewrite bool_decide_eq_true. reflexivity. Qed.

(** The two branches of the stage, on a complete evaluation set. *)
Lemma facilitateInteractiveDiscussion_cases (e : InitialEvaluations) :
  complete e ->
  exists vm,
    varianceByModel_of e = Return vm
    /\ ((highDisagreement vm = true
         /\ exists adjusted,
              roundInvariant e (dom (llm1 e)) adjusted
              /\ facilitateInteractiveDiscussion e
                 = Return {| evaluations := adjusted;
                             discussion_reasoning := DisagreementRefined vm |})
        \/ (highDisagreement vm = false
            /\ facilitateInteractiveDiscussion e
               = Return {| evaluations := e;
                           discussion_reasoning := AgreementAchieved vm |})).
Proof.
  intros Hc.
  destruct (varianceByModel_of_Return e Hc) as (vm & Hvm & _).
  exists vm. split; [exact Hvm |].
  unfold facilitateInteractiveDiscussion. rewrite Hvm. cbn.
  destruct (highDisagreement vm) eqn:Hhigh.
  - left. split; [reflexivity |].
    destruct (simulateDiscussionRound_Return e Hc) as (adjusted & -> & Hinv).
    exists adjusted. auto.
  - right. auto.
Qed.

(** The discussion stage always returns on a complete set, and what it
    returns is complete. *)
Lemma roundInvariant_complete (e adjusted : InitialEvaluations) :
  roundInvariant e (dom (llm1 e)) adjusted ->
  dom (llm1 adjusted) = dom (llm1 e)
  /\ dom (llm2 adjusted) = dom (llm2 e)
  /\ dom (llm3 adjusted) = dom (llm3 e).
Proof.
  intros Hinv. repeat split; apply set_eq; intros k;
    rewrite !elem_of_dom; destruct (Hinv k) as (A1 & A2 & A3);
    cbn in A1, A2, A3; rewrite ?A1, ?A2, ?A3, ?fmap_is_Some; reflexivity.
Qed.

Lemma facilitateInteractiveDiscussion_Return (e : InitialEvaluations) :
  complete e ->
  exists dr,
    facilitateInteractiveDiscussion e = Return dr
    /\ dom (llm1 (evaluations dr)) = dom (llm1 e)
    /\ complete (evaluations dr).
Proof.
  intros Hc.
  destruct (facilitateInteractiveDiscussion_cases e Hc)
    as (vm & _ & [(_ & adjusted & Hinv & ->) | (_ & ->)]).
  - eexists; split; [reflexivity |]. cbn.
    destruct (roundInvariant_complete e adjusted Hinv) as (D1 & D2 & D3).
    destruct Hc as [C2 C3]. unfold complete. rewrite D1, D2, D3. auto.
  - eexists; split; [reflexivity |]. cbn. auto.
Qed.

(** ** The consensus stage *)

Lemma consensusEntry_Return (e : InitialEvaluations) (k : string) (e1 e2 e3 : LLMEvaluation) :
  llm1 e !! k = Some e1 -> llm2 e !! k = Some e2 -> llm3 e !! k = Some e3 ->
  consensusEntry e k
  = Return
      {| individualScores := [score e1; score e2; score e3];
         confidenceScores := [confidence e1; confidence e2; confidence e3];
         weightedScores := [score e1 * confidence e1; score e2 * confidence e2;
                            score e3 * confidence e3]%js;
         finalScore :=
           (sum_numbers [score e1 * confidence e1; score e2 * confidence e2;
                         score e3 * confidence e3]
            / sum_numbers [confidence e1; confidence e2; confidence e3])%js |}.
Proof. intros H1 H2 H3. unfold consensusEntry. rewrite H1, H2, H3. reflexivity. Qed.

Lemma consensusEntry_has_slots (e : InitialEvaluations) (k : string) :
  has_slots e k -> exists entry, consensusEntry e k = Return entry.
Proof.
  intros ([e1 H1] & [e2 H2] & [e3 H3]).
  rewrite (consensusEntry_Return e k e1 e2 e3 H1 H2 H3). eauto.
Qed.

(** The entry the loop stores for a model. *)
Definition entryOf (e : InitialEvaluations) (k : string) : option ConsensusValue :=
  match consensusEntry e k with
  | Return entry => Some (Entry entry)
  | Throw _ => None
  end.

Lemma consensus_loop (e : InitialEvaluations) (modelIds : list string) :
  (forall k, k ∈ modelIds -> has_slots e k) ->
  forall acc : gmap string ConsensusValue,
  exists result,
    foldl (fun acc modelId =>
             let* result := acc in
             let* entry := consensusEntry e modelId in
             Return (<[modelId := Entry entry]> result))
          (Return acc) modelIds = Return result
    /\ forall k, result !! k = if decide (k ∈ modelIds) then entryOf e k else acc !! k.
Proof.
  induction modelIds as [| x modelIds IH]; intros Hslots acc.
  - exists acc. split; [reflexivity |]. intros k.
    rewrite decide_False by set_solver. reflexivity.
  - destruct (consensusEntry_has_slots e x) as [entry Hentry].
    { apply Hslots. set_solver. }
    cbn [foldl bind]. rewrite Hentry. cbn [bind].
    destruct (IH (fun k Hk => Hslots k (list_elem_of_further _ _ _ Hk))
                 (<[x := Entry entry]> acc)) as (result & Hrun & Hlook).
    exists result. split; [exact Hrun |]. intros k. rewrite Hlook.
    destruct (decide (k ∈ modelIds)) as [Hin | Hout].
    + rewrite decide_True by set_solver. reflexivity.
    + destruct (decide (k = x)) as [-> | Hne].
      * rewrite decide_True by set_solver.
        rewrite lookup_insert_eq. unfold entryOf. rewrite Hentry. reflexivity.
      * rewrite decide_False by (intros [Heq | Hin]%elem_of_cons; congruence).
        rewrite lookup_insert_ne by congruence. reflexivity.
Qed.

(** The final score the stage computes for a model. *)
Definition finalScoreOf (e : InitialEvaluations) (k : string) : number :=
  match consensusEntry e k with
  | Return entry => finalScore entry
  | Throw _ => NaN
  end.

Lemma finalScores_Return (e : InitialEvaluations) (result : gmap string ConsensusValue)
    (modelIds : list string) :
  (forall k, k ∈ modelIds -> has_slots e k) ->
  (forall k, k ∈ modelIds -> result !! k = entryOf e k) ->
  mapM_js (get_finalScore result) modelIds = Return (finalScoreOf e <$> modelIds).
Proof.
  induction modelIds as [| x modelIds IH]; intros Hslots Hlook; [reflexivity |].
  cbn [mapM_js]. unfold get_finalScore at 1.
  rewrite Hlook by set_solver. unfold entryOf, finalScoreOf.
  destruct (consensusEntry_has_slots e x) as [entry Hentry].
  { apply Hslots. set_solver. }
  rewrite IH by (intros; first [apply Hslots | apply Hlook]; set_solver).
  cbn. unfold finalScoreOf. rewrite Hentry. reflexivity.
Qed.

(** The number [calculateConsensusScores] stores under [confidence]. *)
Definition overallConfidence (e : InitialEvaluations) (modelIds : list string) : number :=
  match modelIds with
  | a :: b :: _ =>
      Math_min (Fin 1)
        (Math_abs (finalScoreOf e a - finalScoreOf e b) / Fin 2 + Fin 0.5)%js
  | _ => Fin 0.7
  end.

(** The stage returns whenever every model passed has its three slots:
    one entry per model, then the number under [confidence]. *)
Lemma calculateConsensusScores_Return (dr : DiscussionResults) (modelIds : list string) :
  (forall k, k ∈ modelIds -> has_slots (evaluations dr) k) ->
  exists cs,
    calculateConsensusScores dr modelIds = Return cs
    /\ cs !! "confidence" = Some (Num (overallConfidence (evaluations dr) modelIds))
    /\ forall k, k <> "confidence" ->
         cs !! k = if decide (k ∈ modelIds) then entryOf (evaluations dr) k else None.
Proof.
  intros Hslots. unfold calculateConsensusScores.
  destruct (consensus_loop (evaluations dr) modelIds Hslots ∅) as (result & -> & Hlook).
  cbn [bind].
  assert (Hin : forall k, k ∈ modelIds -> result !! k = entryOf (evaluations dr) k).
  { intros k Hk. rewrite Hlook, decide_True by exact Hk. reflexivity. }
  destruct (decide (2 <= length modelIds)%nat) as [Hlen | Hlen].
  - rewrite (finalScores_Return _ _ _ Hslots Hin). cbn [bind].
    destruct modelIds as [| a [| b rest]]; cbn in Hlen; try lia.
    eexists; split; [reflexivity |]. split.
    + rewrite lookup_insert_eq. reflexivity.
    + intros k Hk. rewrite lookup_insert_ne by congruence.
      rewrite Hlook, lookup_empty. reflexivity.
  - eexists; split; [reflexivity |]. split.
    + rewrite lookup_insert_eq.
      destruct modelIds as [| a [| b rest]]; cbn in Hlen; try lia; reflexivity.
    + intros k Hk. rewrite lookup_insert_ne by congruence.
      rewrite Hlook, lookup_empty. reflexivity.
Qed.

Lemma finalScore_Fin (e1 e2 e3 : LLMEvaluation) (s1 s2 s3 c1 c2 c3 : R) :
  score e1 = Fin s1 -> score e2 = Fin s2 -> score e3 = Fin s3 ->
  confidence e1 = Fin c1 -> confidence e2 = Fin c2 -> confidence e3 = Fin c3 ->
  (c1 + c2 + c3 <> 0)%R ->
  (sum_numbers [score e1 * confidence e1; score e2 * confidence e2;
                score e3 * confidence e3]
   / sum_numbers [confidence e1; confidence e2; confidence e3])%js
  = Fin ((s1 * c1 + s2 * c2 + s3 * c3) / (c1 + c2 + c3)).
Proof.
  intros -> -> -> -> -> -> Hsum. cbn [num_mul].
  rewrite !sum3_Fin, div_Fin by exact Hsum. reflexivity.
Qed.

(** With three zero confidences the quotient is 0/0 (or has a NaN
    numerator): NaN, whatever the scores. *)
Lemma finalScore_zero_confidences (e1 e2 e3 : LLMEvaluation) :
  confidence e1 = Fin 0 -> confidence e2 = Fin 0 -> confidence e3 = Fin 0 ->
  (sum_numbers [score e1 * confidence e1; score e2 * confidence e2;
                score e3 * confidence e3]
   / sum_numbers [confidence e1; confidence e2; confidence e3])%js
  = NaN.
Proof.
  intros -> -> ->. rewrite sum3_Fin.
  assert (Hz : forall x, (x * Fin 0)%js = Fin 0 \/ (x * Fin 0)%js = NaN).
  { intros [a | s |]; cbn; [left; f_equal; lra | right | right; reflexivity].
    destruct (Req_dec_T 0 0); [reflexivity | lra]. }
  destruct (Hz (score e1)) as [-> | ->], (Hz (score e2)) as [-> | ->],
    (Hz (score e3)) as [-> | ->]; cbn; try reflexivity.
  destruct (Req_dec_T (0 + 0 + 0) 0) as [_ | Hne]; [| lra].
  destruct (Req_dec_T (0 + 0 + 0 + 0) 0) as [_ | Hne]; [reflexivity | lra].
Qed.


(** C8: the number stored under [confidence] is
    min(1, |finalScore_A - finalScore_B| / 2 + 0.5) for the first two
    models passed, and 0.7 when fewer than two are passed. *)
Theorem C8_overall_confidence (dr : DiscussionResults) (modelIds : list string) :
  (forall k, k ∈ modelIds -> has_slots (evaluations dr) k) ->
  exists cs,
    calculateConsensusScores dr modelIds = Return cs
    /\ match modelIds with
       | a :: b :: _ =>
           exists entryA entryB,
             consensusEntry (evaluations dr) a = Return entryA
             /\ consensusEntry (evaluations dr) b = Return entryB
             /\ cs !! "confidence"
                = Some (Num (Math_min (Fin 1)
                               (Math_abs (finalScore entryA - finalScore entryB)
                                / Fin 2 + Fin 0.5)%js))
             /\ forall fA fB : R,
                  finalScore entryA = Fin fA -> finalScore entryB = Fin fB ->
                  cs !! "confidence"
                  = Some (Num (Fin (Rmin 1 (Rabs (fA - fB) / 2 + 0.5))))
       | _ => cs !! "confidence" = Some (Num (Fin 0.7))
       end.
Proof.
  intros Hslots.
  destruct (calculateConsensusScores_Return dr modelIds Hslots) as (cs & Hrun & Hconf & _).
  exists cs. split; [exact Hrun |].
  destruct modelIds as [| a [| b rest]]; try exact Hconf.
  destruct (consensusEntry_has_slots (evaluations dr) a) as [entryA HA].
  { apply Hslots. set_solver. }
  destruct (consensusEntry_has_slots (evaluations dr) b) as [entryB HB].
  { apply Hslots. set_solver. }
  exists entryA, entryB. split; [exact HA |]. split; [exact HB |].
  unfold overallConfidence, finalScoreOf in Hconf. rewrite HA, HB in Hconf.
  split; [exact Hconf |].
  intros fA fB EA EB. rewrite Hconf, EA, EB. cbn [num_sub num_neg num_add Math_abs].
  rewrite div_Fin by lra. cbn [num_add]. rewrite min_Fin.
  reflexivity.
Qed.

(** C2, as the code has it: on three zero confidences the consensus
    stage raises nothing; it returns, and the model's final score is
    NaN. *)
Theorem C2_zero_confidences_give_NaN (dr : DiscussionResults) (modelIds : list string)
    (k : string) (e1 e2 e3 : LLMEvaluation) :
  (forall k', k' ∈ modelIds -> has_slots (evaluations dr) k') ->
  k ∈ modelIds ->
  llm1 (evaluations dr) !! k = Some e1 ->
  llm2 (evaluations dr) !! k = Some e2 ->
  llm3 (evaluations dr) !! k = Some e3 ->
  confidence e1 = Fin 0 -> confidence e2 = Fin 0 -> confidence e3 = Fin 0 ->
  exists cs entry,
    calculateConsensusScores dr modelIds = Return cs
    /\ consensusEntry (evaluations dr) k = Return entry
    /\ (k <> "confidence" -> cs !! k = Some (Entry entry))
    /\ finalScore entry = NaN.
Proof.
  intros Hslots Hk H1 H2 H3 C1 C2 C3.
  destruct (calculateConsensusScores_Return dr modelIds Hslots) as (cs & Hrun & _ & Hlook).
  exists cs. eexists. split; [exact Hrun |].
  split; [apply (consensusEntry_Return _ k e1 e2 e3 H1 H2 H3) |]. split.
  - intros Hne. rewrite (Hlook k Hne), decide_True by exact Hk.
    unfold entryOf. rewrite (consensusEntry_Return _ k e1 e2 e3 H1 H2 H3). reflexivity.
  - cbn [finalScore]. apply finalScore_zero_confidences; assumption.
Qed.

(** ** Objects with two keys *)

Lemma object2_lookup_2 {A} (k1 k2 : string) (v1 v2 : A) :
  object2 k1 v1 k2 v2 !! k2 = Some v2.
Proof. unfold object2. apply lookup_insert_eq. Qed.

Lemma object2_lookup_1 {A} (k1 k2 : string) (v1 v2 : A) :
  k1 <> k2 -> object2 k1 v1 k2 v2 !! k1 = Some v1.
Proof.
  intros Hne. unfold object2.
  rewrite lookup_insert_ne by congruence. apply lookup_insert_eq.
Qed.

Lemma object2_dom {A} (k1 k2 : string) (v1 v2 : A) :
  dom (object2 k1 v1 k2 v2) = ({[k1; k2]} : gset string).
Proof. unfold object2. rewrite !dom_insert_L, dom_empty_L. set_solver. Qed.

(** ** The initial evaluations *)

Lemma sourceEvaluations_inv (evaluateModel : EvaluationSource) (m1 m2 : Model)
    (e : InitialEvaluations) :
  sourceEvaluations evaluateModel m1 m2 = Some e ->
  exists a1 b1 a2 b2 a3 b3,
    e = {| llm1 := object2 (id m1) a1 (id m2) b1;
           llm2 := object2 (id m1) a2 (id m2) b2;
           llm3 := object2 (id m1) a3 (id m2) b3 |}.
Proof.
  unfold sourceEvaluations.
  destruct (evaluateModel 0%nat _) as [a1 |]; [cbn | discriminate].
  destruct (evaluateModel 1%nat _) as [b1 |]; [cbn | discriminate].
  destruct (evaluateModel 2%nat _) as [a2 |]; [cbn | discriminate].
  destruct (evaluateModel 3%nat _) as [b2 |]; [cbn | discriminate].
  destruct (evaluateModel 4%nat _) as [a3 |]; [cbn | discriminate].
  destruct (evaluateModel 5%nat _) as [b3 |]; [cbn | discriminate].
  intros [= <-]. eauto 10.
Qed.

(** Either way the stage yields both models in each of the three slots. *)
Lemma performInitialEvaluations_shape (evaluateModel : EvaluationSource)
    (random : RandomSource) (m1 m2 : Model) :
  exists a1 b1 a2 b2 a3 b3,
    performInitialEvaluations evaluateModel random m1 m2
    = {| llm1 := object2 (id m1) a1 (id m2) b1;
         llm2 := object2 (id m1) a2 (id m2) b2;
         llm3 := object2 (id m1) a3 (id m2) b3 |}.
Proof.
  unfold performInitialEvaluations.
  destruct (sourceEvaluations evaluateModel m1 m2) as [e |] eqn:Hsrc.
  - apply (sourceEvaluations_inv _ _ _ _ Hsrc).
  - unfold performSimulatedEvaluations. eauto 10.
Qed.

Lemma performInitialEvaluations_complete (evaluateModel : EvaluationSource)
    (random : RandomSource) (m1 m2 : Model) :
  let e := performInitialEvaluations evaluateModel random m1 m2 in
  complete e /\ dom (llm1 e) = {[id m1; id m2]}.
Proof.
  destruct (performInitialEvaluations_shape evaluateModel random m1 m2)
    as (a1 & b1 & a2 & b2 & a3 & b3 & ->).
  unfold complete. cbn. rewrite !object2_dom. auto.
Qed.

(** ** Prediction and determination *)

(** The prediction of one iteration of [generatePredictiveOutcomes]. *)
Definition prediction (model : Model) (confidenceScores : list number) : number :=
  simulateNeuralNetworkPrediction
    (imap (fun index feature => (feature * at_index confidenceScores (index mod 3))%js)
          (generateFeatureVector model)).

Lemma generatePredictiveOutcomes_Return (m1 m2 : Model)
    (cs : gmap string ConsensusValue) (e1 e2 : ModelConsensusScore) :
  cs !! id m1 = Some (Entry e1) -> cs !! id m2 = Some (Entry e2) ->
  generatePredictiveOutcomes m1 m2 cs
  = Return (assign_number (id m2) (prediction m2 (confidenceScores e2))
              (assign_number (id m1) (prediction m1 (confidenceScores e1)) ∅)).
Proof.
  intros H1 H2. unfold generatePredictiveOutcomes, get_confidenceScores.
  cbn [foldl bind]. rewrite H1. cbn [defined bind]. rewrite H2. reflexivity.
Qed.

(** A model whose entry was replaced by a number stops the stage. *)
Lemma generatePredictiveOutcomes_Throw (m1 m2 : Model)
    (cs : gmap string ConsensusValue) (x : number) :
  cs !! id m1 = Some (Num x) \/ cs !! id m2 = Some (Num x) ->
  generatePredictiveOutcomes m1 m2 cs = Throw TypeError.
Proof.
  unfold generatePredictiveOutcomes, get_confidenceScores. cbn [foldl bind].
  intros [H | H].
  - rewrite H. reflexivity.
  - destruct (cs !! id m1) as [[e | y] |]; cbn; try reflexivity.
    rewrite H. reflexivity.
Qed.

Lemma determineWinnerModel_Return (m1 m2 : Model) (cs : gmap string ConsensusValue)
    (po : gmap string number) (e1 e2 : ModelConsensusScore) :
  cs !! id m1 = Some (Entry e1) -> cs !! id m2 = Some (Entry e2) ->
  determineWinnerModel m1 m2 cs po
  = Return (if (blend (finalScore e1) (outcome po (id m1))
                >? blend (finalScore e2) (outcome po (id m2)))%js
            then m1 else m2).
Proof.
  intros H1 H2. unfold determineWinnerModel, get_finalScore.
  rewrite H1, H2. reflexivity.
Qed.

(** ** A whole run *)

(** The result a run assembles from its intermediate values. *)
Definition resultOf (m1 m2 : Model) (dr : DiscussionResults)
    (cs : gmap string ConsensusValue) (po : gmap string number)
    (e1 e2 : ModelConsensusScore) : PTCEResult :=
  {| winner := if (blend (finalScore e1) (outcome po (id m1))
                   >? blend (finalScore e2) (outcome po (id m2)))%js
               then m1 else m2;
     scores := object2 (id m1) (finalScore e1) (id m2) (finalScore e2);
     result_confidence := confidence_or_default cs;
     result_reasoning := discussion_reasoning dr |}.

(** Unless a model is named ["confidence"], both entry points return,
    and what they return is assembled from the stages as follows. *)
Lemma determineWinner_Return (evaluateModel : EvaluationSource) (random : RandomSource)
    (m1 m2 : Model) :
  id m1 <> "confidence" -> id m2 <> "confidence" ->
  let e := performInitialEvaluations evaluateModel random m1 m2 in
  exists dr cs e1 e2,
    let po := assign_number (id m2) (prediction m2 (confidenceScores e2))
                (assign_number (id m1) (prediction m1 (confidenceScores e1)) ∅) in
    facilitateInteractiveDiscussion e = Return dr
    /\ calculateConsensusScores dr [id m1; id m2] = Return cs
    /\ consensusEntry (evaluations dr) (id m1) = Return e1
    /\ consensusEntry (evaluations dr) (id m2) = Return e2
    /\ cs !! id m1 = Some (Entry e1)
    /\ cs !! id m2 = Some (Entry e2)
    /\ cs !! "confidence"
       = Some (Num (overallConfidence (evaluations dr) [id m1; id m2]))
    /\ determineWinner evaluateModel random m1 m2 = Return (resultOf m1 m2 dr cs po e1 e2)
    /\ determineWinnerWithDetails evaluateModel random m1 m2
       = Return {| base := resultOf m1 m2 dr cs po e1 e2;
                   initialEvaluations := e;
                   discussionResults := dr;
                   consensusScores := cs;
                   predictiveOutcomes := po |}.
Proof.
  intros Hid1 Hid2 e.
  destruct (performInitialEvaluations_complete evaluateModel random m1 m2) as [Hc Hdom].
  fold e in Hc, Hdom.
  destruct (facilitateInteractiveDiscussion_Return e Hc) as (dr & Hdr & Hdom' & Hc').
  assert (Hslots : forall k, k ∈ [id m1; id m2] -> has_slots (evaluations dr) k).
  { intros k Hk. apply complete_has_slots; [exact Hc' |].
    rewrite Hdom', Hdom. set_solver. }
  destruct (calculateConsensusScores_Return dr [id m1; id m2] Hslots)
    as (cs & Hcs & Hconf & Hlook).
  destruct (consensusEntry_has_slots (evaluations dr) (id m1)) as [e1 He1].
  { apply Hslots. set_solver. }
  destruct (consensusEntry_has_slots (evaluations dr) (id m2)) as [e2 He2].
  { apply Hslots. set_solver. }
  assert (L1 : cs !! id m1 = Some (Entry e1)).
  { rewrite (Hlook _ Hid1), decide_True by set_solver.
    unfold entryOf. rewrite He1. reflexivity. }
  assert (L2 : cs !! id m2 = Some (Entry e2)).
  { rewrite (Hlook _ Hid2), decide_True by set_solver.
    unfold entryOf. rewrite He2. reflexivity. }
  exists dr, cs, e1, e2. cbv zeta.
  split; [exact Hdr |]. split; [exact Hcs |]. split; [exact He1 |]. split; [exact He2 |].
  split; [exact L1 |]. split; [exact L2 |]. split; [exact Hconf |].
  unfold determineWinner, determineWinnerWithDetails. fold e.
  rewrite Hdr. cbn [bind]. rewrite Hcs. cbn [bind].
  rewrite (generatePredictiveOutcomes_Return m1 m2 cs e1 e2 L1 L2). cbn [bind].
  rewrite (determineWinnerModel_Return m1 m2 cs _ e1 e2 L1 L2). cbn [bind].
  unfold get_finalScore. rewrite L1, L2. cbn [defined bind try_catch].
  split; reflexivity.
Qed.

Lemma object2_lookup_inv {A} (k1 k2 k : string) (v1 v2 v : A) :
  object2 k1 v1 k2 v2 !! k = Some v -> v = v1 \/ v = v2.
Proof.
  unfold object2. rewrite lookup_insert. case_decide as H2; [intros [= <-]; auto |].
  rewrite lookup_insert. case_decide as H1; [intros [= <-]; auto |].
  rewrite lookup_empty. discriminate.
Qed.


(** A model named ["confidence"] loses its consensus entry to the
    number stored under that key, and the run fails. *)
Lemma determineWinner_Throw (evaluateModel : EvaluationSource) (random : RandomSource)
    (m1 m2 : Model) :
  id m1 = "confidence" \/ id m2 = "confidence" ->
  determineWinner evaluateModel random m1 m2 = Throw failure
  /\ determineWinnerWithDetails evaluateModel random m1 m2 = Throw failure.
Proof.
  intros Hid.
  destruct (performInitialEvaluations_complete evaluateModel random m1 m2) as [Hc Hdom].
  destruct (facilitateInteractiveDiscussion_Return _ Hc) as (dr & Hdr & Hdom' & Hc').
  assert (Hslots : forall k, k ∈ [id m1; id m2] -> has_slots (evaluations dr) k).
  { intros k Hk. apply complete_has_slots; [exact Hc' |].
    rewrite Hdom', Hdom. set_solver. }
  destruct (calculateConsensusScores_Return dr [id m1; id m2] Hslots)
    as (cs & Hcs & Hconf & _).
  assert (Hthrow : generatePredictiveOutcomes m1 m2 cs = Throw TypeError).
  { eapply generatePredictiveOutcomes_Throw.
    destruct Hid as [-> | ->]; [left | right]; exact Hconf. }
  unfold determineWinner, determineWinnerWithDetails.
  rewrite Hdr. cbn [bind]. rewrite Hcs. cbn [bind]. rewrite Hthrow.
  split; reflexivity.
Qed.

(** For models not named ["confidence"], [determineWinner] returns a
    result whose winner is one of the two models and whose scores have
    exactly the two model ids as keys; so does
    [determineWinnerWithDetails]. *)
Lemma determineWinner_winner_is_an_input (evaluateModel : EvaluationSource) (random : RandomSource)
    (m1 m2 : Model) :
  id m1 <> "confidence" -> id m2 <> "confidence" ->
  exists r d,
    determineWinner evaluateModel random m1 m2 = Return r
    /\ determineWinnerWithDetails evaluateModel random m1 m2 = Return d
    /\ base d = r
    /\ (winner r = m1 \/ winner r = m2)
    /\ dom (scores r) = ({[id m1; id m2]} : gset string).
Proof.
  intros Hid1 Hid2.
  destruct (determineWinner_Return evaluateModel random m1 m2 Hid1 Hid2)
    as (dr & cs & e1 & e2 & _ & _ & _ & _ & _ & _ & _ & Hrun & Hdet).
  eexists. eexists. split; [exact Hrun |]. split; [exact Hdet |].
  split; [reflexivity |]. cbn [winner scores resultOf]. split.
  - destruct (num_gt _ _); auto.
  - apply object2_dom.
Qed.


(** ** The heuristic fallback *)

Lemma generateConfidenceScore_Fin (random : RandomSource) (n : nat) :
  generateConfidenceScore random n = Fin (0.7 + random n * 0.25).
Proof. reflexivity. Qed.

(** C3, as the code has it: in the fallback pass every evaluation
    carries the confidence [0.7 + r * 0.25], [r] being one of the six
    draws of [Math.random]; with draws in [0, 1) it lies between 0.7
    and 0.95. *)
Theorem C3_fallback_confidence_range (random : RandomSource) (m1 m2 : Model) :
  (forall n, (0 <= random n < 1)%R) ->
  forall (k : string) (e : LLMEvaluation),
    let fallback := performSimulatedEvaluations random m1 m2 in
    llm1 fallback !! k = Some e \/ llm2 fallback !! k = Some e
    \/ llm3 fallback !! k = Some e ->
    exists n,
      (n < 6)%nat
      /\ confidence e = Fin (0.7 + random n * 0.25)
      /\ (0.7 <= 0.7 + random n * 0.25 <= 0.95)%R.
Proof.
  intros Hrange k e fallback Hlook.
  assert (Hdraw : exists n, (n < 6)%nat /\ confidence e = generateConfidenceScore random n).
  { unfold fallback, performSimulatedEvaluations in Hlook. cbn [llm1 llm2 llm3] in Hlook.
    destruct Hlook as [H | [H | H]];
      apply object2_lookup_inv in H as [-> | ->]; cbn [confidence];
      [exists 0%nat | exists 1%nat | exists 2%nat | exists 3%nat | exists 4%nat
       | exists 5%nat]; (split; [lia | reflexivity]). }
  destruct Hdraw as (n & Hn & ->). exists n.
  split; [exact Hn |]. split; [apply generateConfidenceScore_Fin |].
  specialize (Hrange n). lra.
Qed.

(** * Sample runs *)

Definition sampleAttributes (a : R) : Attributes :=
  {| attack_power := Fin a; defense := Fin a; speed_agility := Fin a;
     strategy := Fin a; endurance := Fin a |}.

Definition sampleModel (i : string) (a : R) : Model :=
  {| id := i; name := i; prompt := ""; finalThumbnailUrl := "";
     finalModelUrl := ""; video_url := ""; texture_urls := [];
     attributes := sampleAttributes a; ip_address := ""; secretKey := "" |}.

Definition modelA : Model := sampleModel "a" 0.
Definition modelB : Model := sampleModel "b" 0.

Definition evaluation (s c : R) : LLMEvaluation :=
  {| score := Fin s; confidence := Fin c; reasoning := "" |}.

(** A source that answers every call with the same evaluation, one that
    always fails, and a generator that always draws one half. *)
Definition constantSource (s c : R) : EvaluationSource :=
  fun _ _ => Some (evaluation s c).
Definition failingSource : EvaluationSource := fun _ _ => None.
Definition halves : RandomSource := fun _ => 0.5%R.

(** Models ["a"] and ["b"] with their three slot evaluations. *)
Definition sampleEvaluations (a1 a2 a3 b1 b2 b3 : LLMEvaluation) : InitialEvaluations :=
  {| llm1 := object2 "a" a1 "b" b1;
     llm2 := object2 "a" a2 "b" b2;
     llm3 := object2 "a" a3 "b" b3 |}.

Definition sampleDiscussion (a1 a2 a3 b1 b2 b3 : LLMEvaluation) : DiscussionResults :=
  {| evaluations := sampleEvaluations a1 a2 a3 b1 b2 b3;
     discussion_reasoning := AgreementAchieved ∅ |}.

Lemma sample_complete (a1 a2 a3 b1 b2 b3 : LLMEvaluation) :
  complete (sampleEvaluations a1 a2 a3 b1 b2 b3).
Proof. unfold complete. cbn. rewrite !object2_dom. auto. Qed.

Lemma ab_distinct : ("a" : string) <> "b".
Proof. discriminate. Qed.

Lemma sample_a (a1 a2 a3 b1 b2 b3 : LLMEvaluation) :
  let e := sampleEvaluations a1 a2 a3 b1 b2 b3 in
  llm1 e !! "a" = Some a1 /\ llm2 e !! "a" = Some a2 /\ llm3 e !! "a" = Some a3.
Proof. cbn. rewrite !object2_lookup_1 by apply ab_distinct. auto. Qed.

Lemma sample_b (a1 a2 a3 b1 b2 b3 : LLMEvaluation) :
  let e := sampleEvaluations a1 a2 a3 b1 b2 b3 in
  llm1 e !! "b" = Some b1 /\ llm2 e !! "b" = Some b2 /\ llm3 e !! "b" = Some b3.
Proof. cbn. rewrite !object2_lookup_2. auto. Qed.

Lemma sample_has_slots (a1 a2 a3 b1 b2 b3 : LLMEvaluation) (k : string) :
  k ∈ ["a"; "b"] -> has_slots (sampleEvaluations a1 a2 a3 b1 b2 b3) k.
Proof.
  intros Hk. apply complete_has_slots; [apply sample_complete |].
  cbn. rewrite object2_dom. set_solver.
Qed.

Lemma sample_slotScores (a1 a2 a3 b1 b2 b3 : LLMEvaluation) (k : string) (l : list number) :
  slotScores (sampleEvaluations a1 a2 a3 b1 b2 b3) k = Return l ->
  l = [score a1; score a2; score a3] \/ l = [score b1; score b2; score b3].
Proof.
  unfold slotScores. cbn [llm1 llm2 llm3 sampleEvaluations]. unfold object2.
  rewrite !lookup_insert.
  destruct (decide ("b" = k)) as [<- | Hb]; cbn.
  - intros [= <-]. auto.
  - destruct (decide ("a" = k)) as [<- | Ha]; cbn.
    + intros [= <-]. auto.
    + rewrite lookup_empty. discriminate.
Qed.

(** ** The discussion stage on scores 5, 10, 5 *)

Definition disagreeing : InitialEvaluations :=
  sampleEvaluations (evaluation 5 0.8) (evaluation 10 0.8) (evaluation 5 0.8)
                    (evaluation 7 0.8) (evaluation 7 0.8) (evaluation 7 0.8).

(** ** The consensus stage on scores 6, 7, 8 with confidences 0.7, 0.8, 0.9 *)






(** ** The shared confidence for final scores 8 and 6, and 7 and 7 *)

Definition uniform (a b : R) : DiscussionResults :=
  sampleDiscussion (evaluation a 0.9) (evaluation a 0.9) (evaluation a 0.9)
                   (evaluation b 0.9) (evaluation b 0.9) (evaluation b 0.9).

Lemma uniform_value (a : R) :
  ((a * 0.9 + a * 0.9 + a * 0.9) / (0.9 + 0.9 + 0.9))%R = a.
Proof.
  apply (Rmult_eq_reg_r (0.9 + 0.9 + 0.9)); [| lra].
  unfold Rdiv. rewrite Rmult_assoc, Rinv_l by lra. lra.
Qed.

Lemma uniform_entries (a b : R) :
  exists entryA entryB,
    consensusEntry (evaluations (uniform a b)) "a" = Return entryA
    /\ consensusEntry (evaluations (uniform a b)) "b" = Return entryB
    /\ finalScore entryA = Fin a /\ finalScore entryB = Fin b.
Proof.
  destruct (sample_a (evaluation a 0.9) (evaluation a 0.9) (evaluation a 0.9)
                     (evaluation b 0.9) (evaluation b 0.9) (evaluation b 0.9))
    as (A1 & A2 & A3).
  destruct (sample_b (evaluation a 0.9) (evaluation a 0.9) (evaluation a 0.9)
                     (evaluation b 0.9) (evaluation b 0.9) (evaluation b 0.9))
    as (B1 & B2 & B3).
  eexists; eexists.
  split; [apply (consensusEntry_Return _ "a" _ _ _ A1 A2 A3) |].
  split; [apply (consensusEntry_Return _ "b" _ _ _ B1 B2 B3) |].
  cbn [finalScore].
  split;
    (erewrite finalScore_Fin; [| reflexivity | reflexivity | reflexivity | reflexivity
                               | reflexivity | reflexivity | lra]);
    f_equal; apply uniform_value.
Qed.

Lemma uniform_confidence (a b : R) (cs : gmap string ConsensusValue) :
  (exists entryA entryB,
     consensusEntry (evaluations (uniform a b)) "a" = Return entryA
     /\ consensusEntry (evaluations (uniform a b)) "b" = Return entryB
     /\ cs !! "confidence"
        = Some (Num (Math_min (Fin 1)
                       (Math_abs (finalScore entryA - finalScore entryB)
                        / Fin 2 + Fin 0.5)%js))
     /\ forall fA fB : R,
          finalScore entryA = Fin fA -> finalScore entryB = Fin fB ->
          cs !! "confidence" = Some (Num (Fin (Rmin 1 (Rabs (fA - fB) / 2 + 0.5))))) ->
  cs !! "confidence" = Some (Num (Fin (Rmin 1 (Rabs (a - b) / 2 + 0.5)))).
Proof.
  intros (entryA & entryB & HA & HB & _ & Hreal).
  destruct (uniform_entries a b) as (entryA' & entryB' & HA' & HB' & FA & FB).
  rewrite HA in HA'. injection HA' as <-.
  rewrite HB in HB'. injection HB' as <-.
  apply Hreal; assumption.
Qed.

Lemma C8_overall_confidence_witness :
  (exists cs,
     calculateConsensusScores (uniform 8 6) ["a"; "b"] = Return cs
     /\ cs !! "confidence" = Some (Num (Fin 1)))
  /\ (exists cs,
        calculateConsensusScores (uniform 7 7) ["a"; "b"] = Return cs
        /\ cs !! "confidence" = Some (Num (Fin 0.5)))
  /\ (exists cs,
        calculateConsensusScores (uniform 8 6) ["a"] = Return cs
        /\ cs !! "confidence" = Some (Num (Fin 0.7))).
Proof.
  split; [| split].
  - destruct (C8_overall_confidence (uniform 8 6) ["a"; "b"]
                (sample_has_slots _ _ _ _ _ _)) as (cs & Hrun & Hconf).
    exists cs. split; [exact Hrun |].
    rewrite (uniform_confidence 8 6 cs Hconf).
    do 3 f_equal. rewrite Rabs_right by lra. apply Rmin_left. lra.
  - destruct (C8_overall_confidence (uniform 7 7) ["a"; "b"]
                (sample_has_slots _ _ _ _ _ _)) as (cs & Hrun & Hconf).
    exists cs. split; [exact Hrun |].
    rewrite (uniform_confidence 7 7 cs Hconf).
    do 3 f_equal. rewrite Rabs_right by lra. rewrite Rmin_right by lra. lra.
  - assert (Hslots : forall k, k ∈ ["a"] ->
                       has_slots (evaluations (uniform 8 6)) k).
    { intros k Hk. apply sample_has_slots. set_solver. }
    destruct (C8_overall_confidence (uniform 8 6) ["a"] Hslots) as (cs & Hrun & Hconf).
    exists cs. split; [exact Hrun | exact Hconf].
Defined.

(** ** The consensus stage on zero confidences *)

Definition unweighted : DiscussionResults :=
  sampleDiscussion (evaluation 8 0) (evaluation 8 0) (evaluation 8 0)
                   (evaluation 8 0) (evaluation 8 0) (evaluation 8 0).

Lemma C2_zero_confidences_give_NaN_witness :
  exists cs entry,
    calculateConsensusScores unweighted ["a"; "b"] = Return cs
    /\ cs !! "a" = Some (Entry entry)
    /\ finalScore entry = NaN.
Proof.
  destruct (sample_a (evaluation 8 0) (evaluation 8 0) (evaluation 8 0)
                     (evaluation 8 0) (evaluation 8 0) (evaluation 8 0))
    as (H1 & H2 & H3).
  assert (Hin : ("a" : string) ∈ ["a"; "b"]) by apply list_elem_of_here.
  destruct (C2_zero_confidences_give_NaN unweighted ["a"; "b"] "a" _ _ _
              (sample_has_slots _ _ _ _ _ _) Hin H1 H2 H3 eq_refl eq_refl eq_refl)
    as (cs & entry & Hrun & _ & Hlook & Hfinal).
  exists cs, entry. split; [exact Hrun |]. split; [| exact Hfinal].
  apply Hlook. discriminate.
Defined.

(** ** Runs on a constant source *)

(** The agreement branch, from the test the code makes. *)
Lemma facilitateInteractiveDiscussion_agreement (e : InitialEvaluations) :
  complete e ->
  (forall k l, slotScores e k = Return l -> (calculateVariance l >? Fin 2)%js = false) ->
  exists vm,
    facilitateInteractiveDiscussion e
    = Return {| evaluations := e; discussion_reasoning := AgreementAchieved vm |}.
Proof.
  intros Hc Hlow.
  destruct (facilitateInteractiveDiscussion_cases e Hc)
    as (vm & Hvm & [(Hhigh & _) | (_ & Hrun)]).
  - exfalso. apply highDisagreement_true in Hhigh as (k & v & Hk & Hgt).
    destruct (varianceByModel_of_Return e Hc) as (vm' & Hvm' & _ & Hval).
    rewrite Hvm in Hvm'. injection Hvm' as <-.
    destruct (Hval k v Hk) as (l & Hl & ->).
    rewrite (Hlow k l Hl) in Hgt. discriminate.
  - exists vm. exact Hrun.
Qed.

Lemma sigmoid_Fin (x : R) :
  (Fin 1 / (Fin 1 + Math_exp (num_neg (Fin x))))%js = Fin (1 / (1 + exp (- x))).
Proof.
  cbn [num_neg Math_exp num_add]. apply div_Fin.
  pose proof (exp_pos (- x)). lra.
Qed.

(** The sigmoid of a finite sum lies strictly between 0 and 1. *)
Lemma sigmoid_range (x : R) : (0 < 1 / (1 + exp (- x)) < 1)%R.
Proof.
  pose proof (exp_pos (- x)) as Hexp.
  split.
  - apply Rdiv_lt_0_compat; lra.
  - apply (Rmult_lt_reg_r (1 + exp (- x))); [lra |].
    unfold Rdiv. rewrite Rmult_assoc, Rinv_l by lra. lra.
Qed.

(** A model whose attributes are all 0 has the weighted sum 0 and the
    prediction one half. *)
Lemma prediction_zero (i : string) (c : R) :
  prediction (sampleModel i 0) [Fin c; Fin c; Fin c] = Fin 0.5.
Proof.
  unfold prediction, simulateNeuralNetworkPrediction, generateFeatureVector.
  cbn [attributes sampleModel sampleAttributes attack_power defense speed_agility
       strategy endurance num_add].
  rewrite !div_Fin by lra.
  cbn -[num_mul num_add num_div num_neg Math_exp sum_numbers].
  cbn [num_mul]. unfold sum_numbers. cbn [foldl num_add num_neg Math_exp].
  rewrite div_Fin
    by (match goal with |- (1 + exp ?x <> 0)%R => pose proof (exp_pos x); lra end).
  f_equal.
  match goal with
  | |- (1 / (1 + exp (- ?s)))%R = _ => replace s with 0%R by lra
  end.
  rewrite Ropp_0, exp_0. lra.
Qed.

Definition constantEvaluations (s c : R) : InitialEvaluations :=
  sampleEvaluations (evaluation s c) (evaluation s c) (evaluation s c)
                    (evaluation s c) (evaluation s c) (evaluation s c).

(** The entry of either model when every slot holds score [s] with
    confidence [c]. *)
Definition constantEntry (s c : R) : ModelConsensusScore :=
  {| individualScores := [Fin s; Fin s; Fin s];
     confidenceScores := [Fin c; Fin c; Fin c];
     weightedScores := [Fin (s * c); Fin (s * c); Fin (s * c)];
     finalScore := (Fin (s * c + s * c + s * c) / Fin (c + c + c))%js |}.

Lemma constantEntry_of (s c : R) (k : string) :
  k ∈ ["a"; "b"] ->
  consensusEntry (constantEvaluations s c) k = Return (constantEntry s c).
Proof.
  intros Hk. unfold constantEvaluations.
  assert (Hab : k = "a" \/ k = "b") by set_solver.
  destruct Hab as [-> | ->].
  - destruct (sample_a (evaluation s c) (evaluation s c) (evaluation s c)
                       (evaluation s c) (evaluation s c) (evaluation s c))
      as (H1 & H2 & H3).
    rewrite (consensusEntry_Return _ "a" _ _ _ H1 H2 H3).
    cbn [score confidence evaluation num_mul]. rewrite !sum3_Fin. reflexivity.
  - destruct (sample_b (evaluation s c) (evaluation s c) (evaluation s c)
                       (evaluation s c) (evaluation s c) (evaluation s c))
      as (H1 & H2 & H3).
    rewrite (consensusEntry_Return _ "b" _ _ _ H1 H2 H3).
    cbn [score confidence evaluation num_mul]. rewrite !sum3_Fin. reflexivity.
Qed.

Lemma constant_variance (s c : R) (k : string) (l : list number) :
  slotScores (constantEvaluations s c) k = Return l ->
  (calculateVariance l >? Fin 2)%js = false.
Proof.
  intros Hl. apply sample_slotScores in Hl.
  assert (Heq : l = [Fin s; Fin s; Fin s]) by (destruct Hl as [-> | ->]; reflexivity).
  rewrite Heq, calculateVariance_Fin. apply gt_Fin_false. unfold variance3. lra.
Qed.

(** A run on models ["a"] and ["b"] with every attribute 0, every slot
    answered with score [s] and confidence [c]. *)
Lemma constant_run (s c : R) (random : RandomSource) :
  exists vm cs,
    let dr := {| evaluations := constantEvaluations s c;
                 discussion_reasoning := AgreementAchieved vm |} in
    let po := object2 "a" (Fin 0.5) "b" (Fin 0.5) in
    calculateConsensusScores dr ["a"; "b"] = Return cs
    /\ cs !! "a" = Some (Entry (constantEntry s c))
    /\ cs !! "b" = Some (Entry (constantEntry s c))
    /\ cs !! "confidence"
       = Some (Num (overallConfidence (constantEvaluations s c) ["a"; "b"]))
    /\ determineWinner (constantSource s c) random modelA modelB
       = Return (resultOf modelA modelB dr cs po (constantEntry s c) (constantEntry s c))
    /\ determineWinnerWithDetails (constantSource s c) random modelA modelB
       = Return {| base := resultOf modelA modelB dr cs po
                             (constantEntry s c) (constantEntry s c);
                   initialEvaluations := constantEvaluations s c;
                   discussionResults := dr;
                   consensusScores := cs;
                   predictiveOutcomes := po |}.
Proof.
  assert (Hida : id modelA <> "confidence") by discriminate.
  assert (Hidb : id modelB <> "confidence") by discriminate.
  destruct (determineWinner_Return (constantSource s c) random modelA modelB Hida Hidb)
    as (dr & cs & e1 & e2 & Hdr & Hcs & He1 & He2 & L1 & L2 & Hconf & Hrun & Hdet).
  change (performInitialEvaluations (constantSource s c) random modelA modelB)
    with (constantEvaluations s c) in *.
  change (id modelA) with "a" in *. change (id modelB) with "b" in *.
  destruct (facilitateInteractiveDiscussion_agreement (constantEvaluations s c)
              (sample_complete _ _ _ _ _ _) (constant_variance s c)) as (vm & Hagree).
  rewrite Hagree in Hdr. injection Hdr as <-. cbn [evaluations] in *.
  rewrite constantEntry_of in He1 by set_solver. injection He1 as <-.
  rewrite constantEntry_of in He2 by set_solver. injection He2 as <-.
  cbn [confidenceScores constantEntry] in Hrun, Hdet.
  rewrite (prediction_zero "a" c : prediction modelA _ = _) in Hrun, Hdet.
  rewrite (prediction_zero "b" c : prediction modelB _ = _) in Hrun, Hdet.
  exists vm, cs. cbv zeta. auto 10.
Qed.


Lemma constantEntry_finalScore_zero (s : R) : finalScore (constantEntry s 0) = NaN.
Proof.
  cbn [finalScore constantEntry]. unfold num_div.
  destruct (Req_dec_T (0 + 0 + 0) 0) as [_ | Hne]; [| lra].
  destruct (Req_dec_T (s * 0 + s * 0 + s * 0) 0) as [_ | Hne]; [reflexivity | lra].
Qed.


(** ** Score 8 with confidence 0.9 in every slot: the scores returned
    are 8 and the blended scores are 7.1 *)



(** ** A model named ["confidence"] *)

Definition modelConfidence : Model := sampleModel "confidence" 0.

(** C9 fails on a model named ["confidence"]: the number stored under
    that key replaces the model's consensus entry, the prediction stage
    raises, and both entry points fail instead of returning a result. *)
Theorem C9_model_named_confidence_fails :
  determineWinner (constantSource 8 0.9) halves modelConfidence modelB = Throw failure
  /\ determineWinnerWithDetails (constantSource 8 0.9) halves modelConfidence modelB
     = Throw failure.
Proof. apply determineWinner_Throw. left. reflexivity. Qed.

Example determineWinner_winner_is_an_input_ab :
  exists r d,
    determineWinner (constantSource 8 0.9) halves modelA modelB = Return r
    /\ determineWinnerWithDetails (constantSource 8 0.9) halves modelA modelB = Return d
    /\ base d = r
    /\ (winner r = modelA \/ winner r = modelB)
    /\ dom (scores r) = ({["a"; "b"]} : gset string).
Proof.
  assert (Hida : id modelA <> "confidence") by discriminate.
  assert (Hidb : id modelB <> "confidence") by discriminate.
  exact (determineWinner_winner_is_an_input (constantSource 8 0.9) halves modelA modelB
           Hida Hidb).
Qed.

(** ** Consensus entries with confidence 0.9 in every slot *)

Definition entries (a b : R) : gmap string ConsensusValue :=
  object2 "a" (Entry (constantEntry a 0.9)) "b" (Entry (constantEntry b 0.9)).

(** ** The fallback pass with every draw one half *)

Lemma fallback_first_slot :
  exists e,
    llm1 (performInitialEvaluations failingSource halves modelA modelB) !! "a" = Some e
    /\ confidence e = generateConfidenceScore halves 0.
Proof.
  eexists. split.
  - change (performInitialEvaluations failingSource halves modelA modelB)
      with (performSimulatedEvaluations halves modelA modelB).
    unfold performSimulatedEvaluations. cbn [llm1].
    change (id modelA) with "a". change (id modelB) with "b".
    apply object2_lookup_1, ab_distinct.
  - reflexivity.
Qed.

Lemma C3_fallback_confidence_is_not_fixed :
  exists e,
    llm1 (performInitialEvaluations failingSource halves modelA modelB) !! "a" = Some e
    /\ confidence e = Fin 0.825
    /\ confidence e <> Fin 0.7.
Proof.
  destruct fallback_first_slot as (e & Hlook & Hconf).
  exists e. split; [exact Hlook |].
  assert (Hvalue : confidence e = Fin 0.825).
  { rewrite Hconf, generateConfidenceScore_Fin. f_equal. unfold halves. lra. }
  split; [exact Hvalue |]. rewrite Hvalue. intros [= Heq]. lra.
Qed.

Lemma halves_range (n : nat) : (0 <= halves n < 1)%R.
Proof. unfold halves. lra. Qed.

Lemma C3_fallback_confidence_range_witness :
  exists e n,
    llm1 (performSimulatedEvaluations halves modelA modelB) !! "a" = Some e
    /\ (n < 6)%nat
    /\ confidence e = Fin (0.7 + halves n * 0.25)
    /\ (0.7 <= 0.7 + halves n * 0.25 <= 0.95)%R.
Proof.
  destruct fallback_first_slot as (e & Hlook & _).
  change (performInitialEvaluations failingSource halves modelA modelB)
    with (performSimulatedEvaluations halves modelA modelB) in Hlook.
  destruct (C3_fallback_confidence_range halves modelA modelB halves_range "a" e
              (or_introl Hlook)) as (n & Hn & Hconf & Hbounds).
  exists e, n. auto.
Defined.

(** ** Confidence 0 in every slot: the run completes on NaN *)

Lemma C2_zero_confidences_raise_nothing :
  exists cs r,
    calculateConsensusScores
      {| evaluations := performInitialEvaluations (constantSource 8 0) halves modelA modelB;
         discussion_reasoning := result_reasoning r |} ["a"; "b"] = Return cs
    /\ (exists entry,
          cs !! "a" = Some (Entry entry)
          /\ confidenceScores entry = [Fin 0; Fin 0; Fin 0]
          /\ finalScore entry = NaN)
    /\ determineWinner (constantSource 8 0) halves modelA modelB = Return r
    /\ scores r !! "a" = Some NaN
    /\ result_confidence r = Fin 0.7
    /\ winner r = modelB.
Proof.
  destruct (constant_run 8 0 halves) as (vm & cs & Hcs & La & _ & Hconf & Hrun & _).
  exists cs. eexists. split; [| split; [| split; [exact Hrun |]]].
  - exact Hcs.
  - exists (constantEntry 8 0). split; [exact La |]. split; [reflexivity |].
    apply constantEntry_finalScore_zero.
  - cbn [scores winner result_confidence resultOf].
    change (id modelA) with "a". change (id modelB) with "b".
    rewrite object2_lookup_1 by apply ab_distinct.
    rewrite constantEntry_finalScore_zero.
    split; [reflexivity |]. split; [| reflexivity].
    unfold confidence_or_default. rewrite Hconf.
    unfold overallConfidence, finalScoreOf.
    rewrite !constantEntry_of by set_solver.
    rewrite constantEntry_finalScore_zero. reflexivity.
Qed.

(** * Further functions *)

(** ** [OpenAIService] ([openai-service.ts]) *)

Definition attributeTypeName (t : AttributeType) : string :=
  match t with
  | creativity => "creativity"
  | technical => "technical"
  | performance => "performance"
  | overall => "overall"
  end.

Definition generateFallbackEvaluation (request : LLMRequest) : LLMEvaluation :=
  let a := modelAttributes request in
  let score :=
    match evaluationType request with
    | creativity => Fin 5 + (((strategy a + endurance a) / Fin 2) / Fin 100) * Fin 5
    | technical => Fin 5 + (((defense a + speed_agility a) / Fin 2) / Fin 100) * Fin 5
    | performance => Fin 5 + (((attack_power a + speed_agility a) / Fin 2) / Fin 100) * Fin 5
    | overall => Fin 7.5
    end%js in
  {| score := score;
     confidence := Fin 0.7;
     reasoning := "Fallback evaluation for " +:+ modelName request +:+ " based on "
                  +:+ attributeTypeName (evaluationType request) +:+ " criteria." |}.

(** [evaluateModel]: the body of its [try] (the prompt, the API call,
    [JSON.parse], the checks of the three fields, [parseFloat]) is the
    external part, given as the evaluation it returns on the [n]-th call
    or [None] when anything in it raises; the [catch] answers with the
    fallback evaluation, so the method itself never fails. *)
Definition evaluateModel (completion : nat -> LLMRequest -> option LLMEvaluation)
  : EvaluationSource :=
  fun n request =>
    Some (match completion n request with
          | Some evaluation => evaluation
          | None => generateFallbackEvaluation request
          end).

(** ** [normalizeFeatureVector] (PTCE utilities) *)





(** * Further properties *)

(** ** Ranges *)

Definition in_range (lo hi : R) (x : number) : Prop :=
  exists r, x = Fin r /\ (lo <= r <= hi)%R.

(** The five attributes are numbers between 0 and 100. *)
Definition validAttributes (a : Attributes) : Prop :=
  in_range 0 100 (attack_power a) /\ in_range 0 100 (defense a)
  /\ in_range 0 100 (speed_agility a) /\ in_range 0 100 (strategy a)
  /\ in_range 0 100 (endurance a).

Lemma sampleAttributes_valid (a : R) : (0 <= a <= 100)%R -> validAttributes (sampleAttributes a).
Proof.
  intros Ha. unfold validAttributes, in_range. cbn.
  repeat split; exists a; (split; [reflexivity | exact Ha]).
Qed.

Lemma evaluateAttribute_in_range (model : Model) (t : AttributeType) :
  validAttributes (attributes model) ->
  in_range 5 10 (evaluateAttribute model t (Fin 5) (Fin 10)).
Proof.
  intros ((ap & Hap & ?) & (d & Hd & ?) & (sa & Hsa & ?) & (st & Hst & ?) & (en & Hen & ?)).
  unfold evaluateAttribute. rewrite Hap, Hd, Hsa, Hst, Hen.
  destruct t; cbn [num_add num_sub num_neg]; rewrite !div_Fin by lra;
    cbn [num_mul num_add]; eexists; (split; [reflexivity |]); lra.
Qed.

(** The scores of the fallback pass, slot by slot. *)
Lemma performSimulatedEvaluations_scores (random : RandomSource) (m1 m2 : Model)
    (k : string) (e : LLMEvaluation) :
  let fallback := performSimulatedEvaluations random m1 m2 in
  (llm1 fallback !! k = Some e ->
     exists m, (m = m1 \/ m = m2) /\ k = id m
               /\ score e = evaluateAttribute m creativity (Fin 5) (Fin 10))
  /\ (llm2 fallback !! k = Some e ->
        exists m, (m = m1 \/ m = m2) /\ k = id m
                  /\ score e = evaluateAttribute m technical (Fin 5) (Fin 10))
  /\ (llm3 fallback !! k = Some e ->
        exists m, (m = m1 \/ m = m2) /\ k = id m
                  /\ score e = evaluateAttribute m performance (Fin 5) (Fin 10)).
Proof.
  cbn. unfold object2. rewrite !lookup_insert.
  repeat split; intros H;
    (destruct (decide (id m2 = k)) as [<- | Hne2];
     [injection H as <-; exists m2; auto
     | destruct (decide (id m1 = k)) as [<- | Hne1];
       [injection H as <-; exists m1; auto
       | rewrite lookup_empty in H; discriminate]]).
Qed.

(** X1: with attributes between 0 and 100, every score of the fallback
    pass lies between 5 and 10: it is 5 + basis/100 * 5, the basis being
    the mean of two attributes of the model evaluated. *)
Theorem X1_fallback_scores_in_range (random : RandomSource) (m1 m2 : Model)
    (k : string) (e : LLMEvaluation) :
  validAttributes (attributes m1) -> validAttributes (attributes m2) ->
  let fallback := performSimulatedEvaluations random m1 m2 in
  llm1 fallback !! k = Some e \/ llm2 fallback !! k = Some e
  \/ llm3 fallback !! k = Some e ->
  in_range 5 10 (score e).
Proof.
  intros Hv1 Hv2 fallback Hlook.
  destruct (performSimulatedEvaluations_scores random m1 m2 k e) as (S1 & S2 & S3).
  destruct Hlook as [H | [H | H]];
    [apply S1 in H | apply S2 in H | apply S3 in H];
    destruct H as (m & [-> | ->] & _ & ->);
    apply evaluateAttribute_in_range; assumption.
Qed.

(** ** The prediction *)

Definition sigmoid (x : R) : R := (1 / (1 + exp (- x)))%R.

Lemma sigmoid_mono (x y : R) : (x <= y)%R -> (sigmoid x <= sigmoid y)%R.
Proof.
  intros Hxy. unfold sigmoid.
  pose proof (exp_pos (- x)) as Hx. pose proof (exp_pos (- y)) as Hy.
  assert (Hexp : (exp (- y) <= exp (- x))%R).
  { destruct (Req_dec_T x y) as [-> | Hne]; [lra |].
    left. apply exp_increasing. lra. }
  unfold Rdiv. rewrite !Rmult_1_l.
  apply Rinv_le_contravar; lra.
Qed.

Lemma sigmoid_0 : sigmoid 0 = 0.5%R.
Proof. unfold sigmoid. rewrite Ropp_0, exp_0. lra. Qed.

(** Every weight is a finite number in (0, 0.4], whatever the index. *)
Lemma weight_at (i : nat) :
  exists w, at_index weights (i mod length weights) = Fin w /\ (0 < w <= 0.4)%R.
Proof.
  change (length weights) with 8%nat.
  pose proof (Nat.mod_upper_bound i 8 ltac:(lia)) as Hlt.
  destruct (i mod 8)%nat as [| [| [| [| [| [| [| [| j]]]]]]]]; try lia;
    cbn; eexists; (split; [reflexivity |]); lra.
Qed.

(** The weighted sum of finite features, from any index on. *)
Lemma weighted_sum_finite (features : list R) :
  forall (start : nat) (acc : R),
  exists total,
    foldl num_add (Fin acc)
      (imap (fun index feature =>
               (feature * at_index weights ((start + index) mod length weights))%js)
            (Fin <$> features))
    = Fin total.
Proof.
  induction features as [| x features IH]; intros start acc; [cbn; eauto |].
  cbn [fmap list_fmap imap foldl].
  destruct (weight_at (start + 0)) as (w & -> & _). cbn [num_mul num_add].
  destruct (IH (S start) (acc + x * w)%R) as (total & Htotal).
  exists total. rewrite <- Htotal. f_equal.
  apply imap_ext. intros i y _. unfold compose.
  replace (start + S i)%nat with (S start + i)%nat by lia. reflexivity.
Qed.

(** X2: on any list of finite weighted features the simulated network
    answers a number between 0 and 1; on the empty list it answers one
    half. *)
Theorem X2_prediction_between_0_and_1 (features : list R) :
  (exists p, simulateNeuralNetworkPrediction (Fin <$> features) = Fin p
             /\ (0 <= p <= 1)%R)
  /\ simulateNeuralNetworkPrediction [] = Fin 0.5.
Proof.
  split.
  - unfold simulateNeuralNetworkPrediction, sum_numbers.
    destruct (weighted_sum_finite features 0 0) as (total & Htotal).
    cbn [Nat.add] in Htotal. rewrite Htotal, sigmoid_Fin.
    eexists. split; [reflexivity |].
    match goal with |- (0 <= ?p <= 1)%R => pose proof (sigmoid_range (- - total)) end.
    rewrite Ropp_involutive in *. lra.
  - unfold simulateNeuralNetworkPrediction. cbn [imap sum_numbers foldl].
    rewrite sigmoid_Fin. f_equal. apply sigmoid_0.
Qed.

(** The weighted sum behind the prediction of a model with finite
    attributes and three finite confidences. *)
Definition weightedSum (ap d sa st en c1 c2 c3 : R) : R :=
  (ap / 100 * c1 * 0.2 + d / 100 * c2 * 0.15 + sa / 100 * c3 * 0.15
   + st / 100 * c1 * 0.25 + en / 100 * c2 * 0.15 + (ap + sa) / 200 * c3 * 0.3
   + (d + en) / 200 * c1 * 0.25 + st / 100 * c2 * 0.4)%R.

Lemma prediction_Fin (model : Model) (ap d sa st en c1 c2 c3 : R) :
  attributes model
  = {| attack_power := Fin ap; defense := Fin d; speed_agility := Fin sa;
       strategy := Fin st; endurance := Fin en |} ->
  prediction model [Fin c1; Fin c2; Fin c3]
  = Fin (sigmoid (weightedSum ap d sa st en c1 c2 c3)).
Proof.
  intros Ha.
  unfold prediction, simulateNeuralNetworkPrediction, generateFeatureVector.
  rewrite Ha.
  cbn [attack_power defense speed_agility strategy endurance num_add].
  rewrite !div_Fin by lra.
  cbn -[num_mul num_add num_div num_neg Math_exp sum_numbers].
  cbn [num_mul]. unfold sum_numbers. cbn [foldl num_add num_neg Math_exp].
  rewrite div_Fin
    by (match goal with |- (1 + exp ?x <> 0)%R => pose proof (exp_pos x); lra end).
  f_equal. unfold sigmoid.
  match goal with
  | |- (1 / (1 + exp (- ?s)))%R = _ =>
      replace s with (weightedSum ap d sa st en c1 c2 c3)
        by (unfold weightedSum; lra)
  end.
  reflexivity.
Qed.

Lemma term_bounds (x c w : R) :
  (0 <= x <= 1)%R -> (0 <= c <= 1)%R -> (0 < w)%R -> (0 <= x * c * w <= w)%R.
Proof.
  intros Hx Hc Hw.
  assert (H0 : (0 <= x * c)%R) by (apply Rmult_le_pos; lra).
  assert (H1 : (x * c <= 1)%R).
  { replace 1%R with (1 * 1)%R by lra. apply Rmult_le_compat; lra. }
  split.
  - apply Rmult_le_pos; lra.
  - replace w with (1 * w)%R at 2 by lra. apply Rmult_le_compat_r; lra.
Qed.

Lemma weightedSum_bounds (ap d sa st en c1 c2 c3 : R) :
  (0 <= ap <= 100)%R -> (0 <= d <= 100)%R -> (0 <= sa <= 100)%R ->
  (0 <= st <= 100)%R -> (0 <= en <= 100)%R ->
  (0 <= c1 <= 1)%R -> (0 <= c2 <= 1)%R -> (0 <= c3 <= 1)%R ->
  (0 <= weightedSum ap d sa st en c1 c2 c3 <= 1.85)%R.
Proof.
  intros Hap Hd Hsa Hst Hen H1 H2 H3. unfold weightedSum.
  pose proof (term_bounds (ap / 100) c1 0.2 ltac:(lra) H1 ltac:(lra)).
  pose proof (term_bounds (d / 100) c2 0.15 ltac:(lra) H2 ltac:(lra)).
  pose proof (term_bounds (sa / 100) c3 0.15 ltac:(lra) H3 ltac:(lra)).
  pose proof (term_bounds (st / 100) c1 0.25 ltac:(lra) H1 ltac:(lra)).
  pose proof (term_bounds (en / 100) c2 0.15 ltac:(lra) H2 ltac:(lra)).
  pose proof (term_bounds ((ap + sa) / 200) c3 0.3 ltac:(lra) H3 ltac:(lra)).
  pose proof (term_bounds ((d + en) / 200) c1 0.25 ltac:(lra) H1 ltac:(lra)).
  pose proof (term_bounds (st / 100) c2 0.4 ltac:(lra) H2 ltac:(lra)).
  lra.
Qed.

(** The sigmoid of 1.85, the sum of the eight weights, is below 0.9. *)
Lemma sigmoid_weights : (sigmoid 1.85 <= 0.9)%R.
Proof.
  apply Rle_trans with (sigmoid 2); [apply sigmoid_mono; lra |].
  unfold sigmoid. rewrite exp_Ropp.
  assert (H2 : (0 < exp 2 <= 9)%R).
  { split; [apply exp_pos |].
    replace 2%R with (1 + 1)%R by lra. rewrite exp_plus.
    pose proof exp_le_3 as H3. pose proof (exp_pos 1) as Hpos. nra. }
  assert (Hinv : (/ 9 <= / exp 2)%R) by (apply Rinv_le_contravar; lra).
  unfold Rdiv. rewrite Rmult_1_l.
  replace 0.9%R with (/ (1 + / 9))%R by lra.
  apply Rinv_le_contravar; lra.
Qed.

Lemma prediction_in_range (model : Model) (cs : list number) :
  validAttributes (attributes model) ->
  (exists c1 c2 c3,
     cs = [c1; c2; c3] /\ in_range 0 1 c1 /\ in_range 0 1 c2 /\ in_range 0 1 c3) ->
  in_range 0.5 0.9 (prediction model cs).
Proof.
  intros ((ap & Hap & ?) & (d & Hd & ?) & (sa & Hsa & ?) & (st & Hst & ?) & (en & Hen & ?))
         (c1 & c2 & c3 & -> & (r1 & -> & ?) & (r2 & -> & ?) & (r3 & -> & ?)).
  rewrite (prediction_Fin model ap d sa st en r1 r2 r3).
  - eexists. split; [reflexivity |].
    pose proof (weightedSum_bounds ap d sa st en r1 r2 r3) as Hsum.
    rewrite <- sigmoid_0. split; [apply sigmoid_mono; lra |].
    apply Rle_trans with (sigmoid 1.85); [apply sigmoid_mono; lra | apply sigmoid_weights].
  - destruct (attributes model). cbn in *. congruence.
Qed.

Lemma assign_number_dom {A} (k1 k2 : string) (v1 v2 : A) :
  dom (assign_number k2 v2 (assign_number k1 v1 ∅))
  = ({[k1; k2]} ∖ {["__proto__"]} : gset string).
Proof.
  unfold assign_number.
  destruct (decide (k1 = "__proto__")), (decide (k2 = "__proto__"));
    rewrite ?dom_insert_L, ?dom_empty_L; set_solver.
Qed.

Lemma assign_number_lookup_inv {A} (k1 k2 k : string) (v1 v2 v : A) :
  assign_number k2 v2 (assign_number k1 v1 ∅) !! k = Some v -> v = v1 \/ v = v2.
Proof.
  unfold assign_number.
  destruct (decide (k1 = "__proto__")), (decide (k2 = "__proto__"));
    rewrite ?lookup_insert; repeat case_decide; rewrite ?lookup_empty;
    intros [= <-]; auto.
Qed.

(** X3: for two models with attributes between 0 and 100 whose entries
    hold three confidences between 0 and 1, the prediction stage returns
    an object that holds an outcome for each id other than ["__proto__"]
    and for nothing else, and every outcome lies between 0.5 and 0.9. *)
Theorem X3_outcomes_between_half_and_nine_tenths (m1 m2 : Model)
    (cs : gmap string ConsensusValue) (e1 e2 : ModelConsensusScore) :
  validAttributes (attributes m1) -> validAttributes (attributes m2) ->
  cs !! id m1 = Some (Entry e1) -> cs !! id m2 = Some (Entry e2) ->
  (forall e, e = e1 \/ e = e2 ->
     exists c1 c2 c3,
       confidenceScores e = [c1; c2; c3]
       /\ in_range 0 1 c1 /\ in_range 0 1 c2 /\ in_range 0 1 c3) ->
  exists po,
    generatePredictiveOutcomes m1 m2 cs = Return po
    /\ dom po = ({[id m1; id m2]} ∖ {["__proto__"]} : gset string)
    /\ (forall k p, po !! k = Some p -> in_range 0.5 0.9 p).
Proof.
  intros Hv1 Hv2 L1 L2 Hconf.
  rewrite (generatePredictiveOutcomes_Return m1 m2 cs e1 e2 L1 L2).
  eexists. split; [reflexivity |]. split; [apply assign_number_dom |].
  intros k p Hp. apply assign_number_lookup_inv in Hp as [-> | ->];
    apply prediction_in_range; auto.
Qed.

(** ** The variance of any list of scores *)

Definition sumR (l : list R) : R := foldr Rplus 0%R l.

Lemma sum_numbers_Fin_acc (l : list R) (acc : R) :
  foldl num_add (Fin acc) (Fin <$> l) = Fin (acc + sumR l).
Proof.
  revert acc. induction l as [| x l IH]; intros acc.
  - cbn. f_equal. lra.
  - cbn [fmap list_fmap foldl num_add]. rewrite IH.
    unfold sumR. cbn [foldr]. f_equal. lra.
Qed.

Lemma sum_numbers_Fin (l : list R) : sum_numbers (Fin <$> l) = Fin (sumR l).
Proof. unfold sum_numbers. rewrite sum_numbers_Fin_acc. f_equal. lra. Qed.

Lemma sumR_nonneg (l : list R) : Forall (fun x => (0 <= x)%R) l -> (0 <= sumR l)%R.
Proof. induction 1 as [| x l Hx _ IH]; unfold sumR in *; cbn [foldr]; lra. Qed.

Lemma array_length_fmap {A B} (f : A -> B) (l : list A) :
  array_length (f <$> l) = array_length l.
Proof. unfold array_length. rewrite length_fmap. reflexivity. Qed.

(** X4: the variance of a non-empty list of finite scores, of any
    length, is never NaN and never negative; the variance of the empty
    list is NaN (0/0), not an error. *)
Theorem X4_variance_not_negative (scores : list R) :
  (scores <> [] ->
     calculateVariance (Fin <$> scores) <> NaN
     /\ (Fin 0 >? calculateVariance (Fin <$> scores))%js = false)
  /\ calculateVariance [] = NaN.
Proof.
  split.
  - intros Hne.
    assert (Hlen : (0 < INR (length scores))%R).
    { apply lt_0_INR. destruct scores; [congruence | cbn; lia]. }
    unfold calculateVariance.
    rewrite sum_numbers_Fin, !array_length_fmap. unfold array_length.
    rewrite div_Fin by lra.
    set (m := (sumR scores / INR (length scores))%R).
    assert (Hsq : (fun score => Math_pow2 (score - Fin m)%js) <$> (Fin <$> scores)
                  = Fin <$> ((fun x => ((x + - m) * (x + - m))%R) <$> scores)).
    { rewrite <- !list_fmap_compose. apply list_fmap_ext. intros; reflexivity. }
    rewrite Hsq, sum_numbers_Fin, div_Fin by lra.
    split; [discriminate |]. apply gt_Fin_false.
    apply Rmult_le_pos; [| left; apply Rinv_0_lt_compat; exact Hlen].
    apply sumR_nonneg. apply Forall_fmap, Forall_forall. intros x _. cbn.
    apply Rle_0_sqr.
  - unfold calculateVariance, array_length. cbn.
    destruct (Req_dec_T 0 0) as [_ | Hne]; [| lra].
    destruct (Req_dec_T 0 0) as [_ | Hne]; [reflexivity | lra].
Qed.

(** ** The confidence of a result *)

Lemma overall_or_default (f1 f2 : number) :
  in_range 0.5 1
    (Math_min (Fin 1) (Math_abs (f1 - f2) / Fin 2 + Fin 0.5) || Fin 0.7)%js.
Proof.
  assert (Hone : in_range 0.5 1 (Math_min (Fin 1) (Infinity false) || Fin 0.7)%js).
  { unfold num_or, truthy. cbn. destruct (Req_dec_T 1 0); [lra |].
    exists 1%R. split; [reflexivity | lra]. }
  assert (Hinf : (Infinity false / Fin 2 + Fin 0.5)%js = Infinity false).
  { unfold num_div, Rnegative. destruct (Rlt_dec 2 0); [lra | reflexivity]. }
  assert (Hnan : in_range 0.5 1 (NaN || Fin 0.7)%js).
  { exists 0.7%R. split; [reflexivity | lra]. }
  destruct f1 as [a | s |], f2 as [b | t |];
    cbn [num_sub num_neg num_add Math_abs];
    try (rewrite Hinf; exact Hone); try exact Hnan.
  - rewrite div_Fin by lra. cbn [num_add]. rewrite min_Fin.
    pose proof (Rabs_pos (a + - b)) as Habs.
    assert (Hmin : (0.5 <= Rmin 1 (Rabs (a + - b) / 2 + 0.5) <= 1)%R).
    { split; [apply Rmin_glb; lra | apply Rmin_l]. }
    unfold num_or, truthy. destruct (Req_dec_T _ 0); [lra |].
    eexists. split; [reflexivity | exact Hmin].
  - destruct (Bool.eqb s (negb t)); cbn [Math_abs];
      [rewrite Hinf; exact Hone | exact Hnan].
Qed.

(** X6: whatever the evaluations, the confidence of a returned result
    is a finite number between 0.5 and 1: the clamped score gap, or 0.7
    when the gap is NaN. *)
Theorem X6_result_confidence_range (evaluateModel : EvaluationSource)
    (random : RandomSource) (m1 m2 : Model) (r : PTCEResult) :
  determineWinner evaluateModel random m1 m2 = Return r ->
  in_range 0.5 1 (result_confidence r).
Proof.
  intros Hreturn.
  destruct (decide (id m1 = "confidence")) as [Hid1 | Hid1].
  { destruct (determineWinner_Throw evaluateModel random m1 m2 (or_introl Hid1))
      as [Hthrow _].
    rewrite Hthrow in Hreturn. discriminate. }
  destruct (decide (id m2 = "confidence")) as [Hid2 | Hid2].
  { destruct (determineWinner_Throw evaluateModel random m1 m2 (or_intror Hid2))
      as [Hthrow _].
    rewrite Hthrow in Hreturn. discriminate. }
  destruct (determineWinner_Return evaluateModel random m1 m2 Hid1 Hid2)
    as (dr & cs & e1 & e2 & _ & _ & _ & _ & _ & _ & Hconf & Hrun & _).
  rewrite Hrun in Hreturn. injection Hreturn as <-.
  cbn [result_confidence resultOf]. unfold confidence_or_default.
  rewrite Hconf. apply overall_or_default.
Qed.

(** ** What a round keeps *)

Lemma roundInvariant_lookup (e adjusted : InitialEvaluations) (k : string) :
  complete e -> roundInvariant e (dom (llm1 e)) adjusted ->
  forall slot : InitialEvaluations -> gmap string LLMEvaluation,
    slot = llm1 \/ slot = llm2 \/ slot = llm3 ->
    forall e0, slot e !! k = Some e0 ->
      slot adjusted !! k = Some (roundEvaluation (meanScore e k) e0).
Proof.
  intros [C2 C3] Hinv slot Hslot e0 Hlook.
  assert (Hk : k ∈ dom (llm1 e)).
  { destruct Hslot as [-> | [-> | ->]];
      [| rewrite <- C2 | rewrite <- C3]; apply elem_of_dom; eauto. }
  destruct (Hinv k) as (A1 & A2 & A3). cbn in A1, A2, A3.
  rewrite decide_True in A1, A2, A3 by exact Hk.
  destruct Hslot as [-> | [-> | ->]];
    [rewrite A1 | rewrite A2 | rewrite A3]; rewrite Hlook; reflexivity.
Qed.

(** X8: a round never lowers a confidence that is at most 1 and never
    raises it above 1; it leaves the reasoning text of every evaluation
    as it was. *)
Theorem X8_round_raises_confidence (e : InitialEvaluations) :
  complete e ->
  exists adjusted,
    simulateDiscussionRound e = Return adjusted
    /\ forall slot : InitialEvaluations -> gmap string LLMEvaluation,
         slot = llm1 \/ slot = llm2 \/ slot = llm3 ->
         forall k e0 (c : R),
           slot e !! k = Some e0 -> confidence e0 = Fin c -> (c <= 1)%R ->
           exists a d,
             slot adjusted !! k = Some a
             /\ reasoning a = reasoning e0
             /\ confidence a = Fin d
             /\ (c <= d <= 1)%R.
Proof.
  intros Hc.
  destruct (simulateDiscussionRound_Return e Hc) as (adjusted & Hrun & Hinv).
  exists adjusted. split; [exact Hrun |].
  intros slot Hslot k e0 c Hlook Hconf Hle.
  rewrite (roundInvariant_lookup e adjusted k Hc Hinv slot Hslot e0 Hlook).
  eexists. exists (c + (1 - c) * 0.3)%R. split; [reflexivity |].
  unfold roundEvaluation, adjustEvaluation, deepCopyEvaluation.
  cbn [reasoning confidence]. rewrite Hconf. cbn.
  split; [reflexivity |]. split; [f_equal; lra |]. lra.
Qed.

(** ** Missing evaluations *)

(** A loop whose body raises a TypeError at some key, and can raise
    nothing else, raises a TypeError. *)
Lemma forKeys_Throw {A B} (m : gmap string A) (body : string -> B -> js_result B)
    (init : B) (k : string) :
  k ∈ dom m ->
  (forall b, body k b = Throw TypeError) ->
  (forall k' b e, body k' b = Throw e -> e = TypeError) ->
  forKeys m body init = Throw TypeError.
Proof.
  intros Hk Hbad Honly. unfold forKeys.
  cut (forall m' : gmap string A,
         let r := map_fold (fun modelId _ acc => let* b := acc in body modelId b)
                    (Return init) m' in
         (forall e, r = Throw e -> e = TypeError)
         /\ (k ∈ dom m' -> r = Throw TypeError)).
  { intros H. apply (H m). exact Hk. }
  intros m'.
  induction m' as [| i x m' Hi Hfold IH] using map_first_key_ind; cbv zeta.
  - rewrite map_fold_empty. split; [discriminate |].
    rewrite dom_empty_L. set_solver.
  - rewrite map_fold_insert_first_key by assumption.
    cbv zeta in IH. destruct IH as [IHe IHk].
    destruct (map_fold _ (Return init) m') as [b | e0] eqn:Hr.
    + cbn [bind]. split; [apply Honly |].
      rewrite dom_insert_L. intros Hin.
      destruct (decide (k = i)) as [<- | Hne]; [apply Hbad |].
      assert (Hin' : k ∈ dom m') by set_solver.
      specialize (IHk Hin'). discriminate.
    + cbn [bind]. rewrite (IHe e0 eq_refl). split; [intros e [= <-] |]; reflexivity.
Qed.

Lemma slotScores_Throw (e : InitialEvaluations) (k : string) :
  ~ has_slots e k -> slotScores e k = Throw TypeError.
Proof.
  unfold has_slots, slotScores. intros Hno.
  destruct (llm1 e !! k); [| reflexivity].
  destruct (llm2 e !! k); [| reflexivity].
  destruct (llm3 e !! k); [| reflexivity].
  exfalso. apply Hno. eauto.
Qed.

Lemma slotScores_only_TypeError (e : InitialEvaluations) (k : string) (err : js_error) :
  slotScores e k = Throw err -> err = TypeError.
Proof.
  unfold slotScores.
  destruct (llm1 e !! k); [| intros [= <-]; reflexivity].
  destruct (llm2 e !! k); [| intros [= <-]; reflexivity].
  destruct (llm3 e !! k); [| intros [= <-]; reflexivity].
  discriminate.
Qed.

(** X9: when a model evaluated in slot 1 lacks an evaluation in slot 2
    or slot 3, and its id is not a name that objects inherit from
    [Object.prototype], the discussion stage raises a TypeError. *)
Theorem X9_discussion_needs_three_slots (e : InitialEvaluations) (k : string) :
  k ∉ Object_prototype ->
  k ∈ dom (llm1 e) -> ~ has_slots e k ->
  facilitateInteractiveDiscussion e = Throw TypeError.
Proof.
  intros _ Hk Hno. unfold facilitateInteractiveDiscussion, varianceByModel_of.
  rewrite (forKeys_Throw (llm1 e) _ ∅ k Hk); [reflexivity | |].
  - intros vm. rewrite (slotScores_Throw e k Hno). reflexivity.
  - intros k' vm err. destruct (slotScores e k') eqn:Hs; cbn; [discriminate |].
    intros [= <-]. eapply slotScores_only_TypeError. exact Hs.
Qed.

Lemma consensusEntry_Throw (e : InitialEvaluations) (k : string) :
  ~ has_slots e k -> consensusEntry e k = Throw TypeError.
Proof.
  unfold has_slots, consensusEntry. intros Hno.
  destruct (llm1 e !! k); [| reflexivity].
  destruct (llm2 e !! k); [| reflexivity].
  destruct (llm3 e !! k); [| reflexivity].
  exfalso. apply Hno. eauto.
Qed.

Lemma consensus_loop_Throw (e : InitialEvaluations) (modelIds : list string) (k : string) :
  k ∈ modelIds -> ~ has_slots e k ->
  forall acc : js_result (gmap string ConsensusValue),
    (forall err, acc = Throw err -> err = TypeError) ->
    foldl (fun acc modelId =>
             let* result := acc in
             let* entry := consensusEntry e modelId in
             Return (<[modelId := Entry entry]> result))
          acc modelIds = Throw TypeError.
Proof.
  intros Hk Hno.
  assert (Hstay : forall ids : list string,
            foldl (fun acc modelId =>
                     let* result := acc in
                     let* entry := consensusEntry e modelId in
                     Return (<[modelId := Entry entry]> result))
                  (Throw TypeError) ids
            = (Throw TypeError : js_result (gmap string ConsensusValue))).
  { induction ids as [| y ids IHids]; [reflexivity | exact IHids]. }
  induction modelIds as [| x modelIds IH]; intros acc Hacc; [set_solver |].
  cbn [foldl].
  destruct acc as [result | err]; cbn [bind].
  - destruct (decide (k = x)) as [<- | Hne].
    + rewrite (consensusEntry_Throw e k Hno). cbn [bind]. apply Hstay.
    + apply IH; [set_solver |].
      intros err. destruct (consensusEntry e x) as [entry | err'] eqn:Hentry;
        cbn [bind]; [discriminate |].
      intros [= <-]. revert Hentry. unfold consensusEntry.
      destruct (llm1 e !! x); [| intros [= <-]; reflexivity].
      destruct (llm2 e !! x); [| intros [= <-]; reflexivity].
      destruct (llm3 e !! x); [| intros [= <-]; reflexivity].
      discriminate.
  - rewrite (Hacc err eq_refl). apply Hstay.
Qed.

(** X10: when a model id passed to the consensus stage lacks an
    evaluation in one of the three slots, and is not a name that objects
    inherit from [Object.prototype], the stage raises a TypeError and
    computes no score. *)
Theorem X10_consensus_needs_three_slots (dr : DiscussionResults)
    (modelIds : list string) (k : string) :
  k ∉ Object_prototype ->
  k ∈ modelIds -> ~ has_slots (evaluations dr) k ->
  calculateConsensusScores dr modelIds = Throw TypeError.
Proof.
  intros _ Hk Hno. unfold calculateConsensusScores.
  rewrite (consensus_loop_Throw (evaluations dr) modelIds k Hk Hno (Return ∅));
    [reflexivity | discriminate].
Qed.

(** ** The source and the fallback *)

(** The six calls of [performInitialEvaluations], in order. *)
Definition calls (m1 m2 : Model) : list (nat * LLMRequest) :=
  [ (0%nat, request m1 creativity); (1%nat, request m2 creativity);
    (2%nat, request m1 technical); (3%nat, request m2 technical);
    (4%nat, request m1 performance); (5%nat, request m2 performance) ].

(** X11: the initial evaluations are all from the source or all from the
    heuristic: when one of the six calls fails the stage returns the
    fallback pass, whatever the other calls answered; when none fails it
    returns the six answers. *)
Theorem X11_source_or_fallback (evaluateModel : EvaluationSource)
    (random : RandomSource) (m1 m2 : Model) :
  ((exists n req, (n, req) ∈ calls m1 m2 /\ evaluateModel n req = None) ->
   performInitialEvaluations evaluateModel random m1 m2
   = performSimulatedEvaluations random m1 m2)
  /\ ((forall n req, (n, req) ∈ calls m1 m2 -> is_Some (evaluateModel n req)) ->
      exists a1 b1 a2 b2 a3 b3,
        evaluateModel 0%nat (request m1 creativity) = Some a1
        /\ evaluateModel 1%nat (request m2 creativity) = Some b1
        /\ evaluateModel 2%nat (request m1 technical) = Some a2
        /\ evaluateModel 3%nat (request m2 technical) = Some b2
        /\ evaluateModel 4%nat (request m1 performance) = Some a3
        /\ evaluateModel 5%nat (request m2 performance) = Some b3
        /\ performInitialEvaluations evaluateModel random m1 m2
           = {| llm1 := object2 (id m1) a1 (id m2) b1;
                llm2 := object2 (id m1) a2 (id m2) b2;
                llm3 := object2 (id m1) a3 (id m2) b3 |}).
Proof.
  unfold performInitialEvaluations, sourceEvaluations, calls. split.
  - intros (n & req & Hin & Hnone).
    destruct (evaluateModel 0%nat _) as [a1 |] eqn:E0; [cbn | reflexivity].
    destruct (evaluateModel 1%nat _) as [b1 |] eqn:E1; [cbn | reflexivity].
    destruct (evaluateModel 2%nat _) as [a2 |] eqn:E2; [cbn | reflexivity].
    destruct (evaluateModel 3%nat _) as [b2 |] eqn:E3; [cbn | reflexivity].
    destruct (evaluateModel 4%nat _) as [a3 |] eqn:E4; [cbn | reflexivity].
    destruct (evaluateModel 5%nat _) as [b3 |] eqn:E5; [cbn | reflexivity].
    exfalso.
    repeat (apply elem_of_cons in Hin as [Hin | Hin];
            [injection Hin as -> ->; congruence |]).
    apply elem_of_nil in Hin. exact Hin.
  - intros Hall.
    destruct (Hall 0%nat (request m1 creativity)) as [a1 E0]; [set_solver |].
    destruct (Hall 1%nat (request m2 creativity)) as [b1 E1]; [set_solver |].
    destruct (Hall 2%nat (request m1 technical)) as [a2 E2]; [set_solver |].
    destruct (Hall 3%nat (request m2 technical)) as [b2 E3]; [set_solver |].
    destruct (Hall 4%nat (request m1 performance)) as [a3 E4]; [set_solver |].
    destruct (Hall 5%nat (request m2 performance)) as [b3 E5]; [set_solver |].
    exists a1, b1, a2, b2, a3, b3.
    rewrite E0, E1, E2, E3, E4, E5. cbn. auto 10.
Qed.

(** X12: two models that carry the same id share every map of the run:
    the second model's evaluations and prediction replace the first's,
    the blended scores are equal, the second model wins and the scores
    hold a single key. *)
Theorem X12_same_id_second_wins (evaluateModel : EvaluationSource) (random : RandomSource)
    (m1 m2 : Model) :
  id m1 = id m2 -> id m2 <> "confidence" ->
  exists r,
    determineWinner evaluateModel random m1 m2 = Return r
    /\ winner r = m2
    /\ dom (scores r) = ({[id m2]} : gset string).
Proof.
  intros Heq Hid2.
  assert (Hid1 : id m1 <> "confidence") by congruence.
  destruct (determineWinner_Return evaluateModel random m1 m2 Hid1 Hid2)
    as (dr & cs & e1 & e2 & _ & _ & He1 & He2 & _ & _ & _ & Hrun & _).
  eexists. split; [exact Hrun |]. cbn [winner scores resultOf].
  rewrite Heq in He1. rewrite He1 in He2. injection He2 as ->.
  split.
  - rewrite Heq. rewrite gt_irrefl. reflexivity.
  - rewrite object2_dom, Heq. set_solver.
Qed.

(** X13: for the three criteria the fallback of [OpenAIService] gives
    the score the heuristic of [PTCEService] gives, with the confidence
    0.7; for any other evaluation type it gives 7.5. *)
Theorem X13_fallbacks_agree (model : Model) (t : AttributeType) :
  confidence (generateFallbackEvaluation (request model t)) = Fin 0.7
  /\ score (generateFallbackEvaluation (request model t))
     = match t with
       | overall => Fin 7.5
       | _ => evaluateAttribute model t (Fin 5) (Fin 10)
       end.
Proof.
  split; [reflexivity |].
  assert (Hfive : (Fin 10 - Fin 5)%js = Fin 5) by (cbn; f_equal; lra).
  unfold generateFallbackEvaluation, evaluateAttribute, request.
  cbn [score modelAttributes evaluationType].
  destruct t; rewrite ?Hfive; reflexivity.
Qed.

(** X14: with [evaluateModel] of [OpenAIService] as the source, the
    fallback pass of [PTCEService] is never taken: every evaluation of
    the initial set is the answer of a call that succeeded, or the
    fallback evaluation of a call that failed, with confidence 0.7. *)
Theorem X14_service_never_fails (completion : nat -> LLMRequest -> option LLMEvaluation)
    (random : RandomSource) (m1 m2 : Model) :
  let e := performInitialEvaluations (evaluateModel completion) random m1 m2 in
  sourceEvaluations (evaluateModel completion) m1 m2 = Some e
  /\ forall k e0,
       llm1 e !! k = Some e0 \/ llm2 e !! k = Some e0 \/ llm3 e !! k = Some e0 ->
       exists n req,
         (n, req) ∈ calls m1 m2
         /\ (completion n req = Some e0
             \/ (completion n req = None
                 /\ e0 = generateFallbackEvaluation req
                 /\ confidence e0 = Fin 0.7)).
Proof.
  cbv zeta. unfold performInitialEvaluations.
  assert (Hsrc : exists e, sourceEvaluations (evaluateModel completion) m1 m2 = Some e
                           /\ e = {| llm1 := object2 (id m1)
                                       (default (generateFallbackEvaluation (request m1 creativity))
                                          (completion 0%nat (request m1 creativity)))
                                       (id m2)
                                       (default (generateFallbackEvaluation (request m2 creativity))
                                          (completion 1%nat (request m2 creativity)));
                                     llm2 := object2 (id m1)
                                       (default (generateFallbackEvaluation (request m1 technical))
                                          (completion 2%nat (request m1 technical)))
                                       (id m2)
                                       (default (generateFallbackEvaluation (request m2 technical))
                                          (completion 3%nat (request m2 technical)));
                                     llm3 := object2 (id m1)
                                       (default (generateFallbackEvaluation (request m1 performance))
                                          (completion 4%nat (request m1 performance)))
                                       (id m2)
                                       (default (generateFallbackEvaluation (request m2 performance))
                                          (completion 5%nat (request m2 performance))) |}).
  { eexists. split; [| reflexivity]. unfold sourceEvaluations, evaluateModel. cbn.
    repeat f_equal; destruct (completion _ _); reflexivity. }
  destruct Hsrc as (e & Hsome & He). rewrite Hsome. split; [reflexivity |].
  assert (Hcall : forall n req,
            (n, req) ∈ calls m1 m2 ->
            exists n' req',
              (n', req') ∈ calls m1 m2
              /\ (completion n' req'
                  = Some (default (generateFallbackEvaluation req) (completion n req))
                  \/ (completion n' req' = None
                      /\ default (generateFallbackEvaluation req) (completion n req)
                         = generateFallbackEvaluation req'
                      /\ confidence (default (generateFallbackEvaluation req)
                                       (completion n req)) = Fin 0.7))).
  { intros n req Hin. exists n, req. split; [exact Hin |].
    destruct (completion n req) as [e0 |]; cbn; auto. }
  intros k e0 Hlook. subst e. cbn [llm1 llm2 llm3] in Hlook.
  destruct Hlook as [H | [H | H]];
    apply object2_lookup_inv in H as [-> | ->]; apply Hcall; unfold calls; set_solver.
Qed.

(** ** Normalizing a feature vector *)





(** * Further sample runs *)

Definition strongA : Model := sampleModel "a" 80.
Definition weakB : Model := sampleModel "b" 40.

Lemma strongA_valid : validAttributes (attributes strongA).
Proof. apply sampleAttributes_valid. lra. Qed.

Lemma weakB_valid : validAttributes (attributes weakB).
Proof. apply sampleAttributes_valid. lra. Qed.

Lemma modelA_valid : validAttributes (attributes modelA).
Proof. apply sampleAttributes_valid. lra. Qed.

Lemma modelB_valid : validAttributes (attributes modelB).
Proof. apply sampleAttributes_valid. lra. Qed.

Lemma strongA_creativity :
  evaluateAttribute strongA creativity (Fin 5) (Fin 10) = Fin 9.
Proof.
  unfold evaluateAttribute. cbn [attributes strongA sampleModel sampleAttributes
                                 strategy endurance num_add num_sub num_neg].
  rewrite !div_Fin by lra. cbn [num_mul num_add]. f_equal. lra.
Qed.

(** Attributes 80 give the first slot of the fallback pass the score 9. *)
Lemma X1_fallback_scores_in_range_witness :
  exists e,
    llm1 (performSimulatedEvaluations halves strongA weakB) !! "a" = Some e
    /\ score e = Fin 9
    /\ in_range 5 10 (score e).
Proof.
  assert (Hlook : llm1 (performSimulatedEvaluations halves strongA weakB) !! "a"
                  = Some {| score := evaluateAttribute strongA creativity (Fin 5) (Fin 10);
                            confidence := generateConfidenceScore halves 0;
                            reasoning := "Model a shows high creativity." |}).
  { unfold performSimulatedEvaluations. cbn [llm1].
    change (id strongA) with "a". change (id weakB) with "b".
    rewrite object2_lookup_1 by apply ab_distinct.
    do 2 f_equal. unfold level. cbn [attributes strongA sampleModel sampleAttributes strategy].
    rewrite gt_Fin_true by lra. reflexivity. }
  eexists. split; [exact Hlook |]. split; [apply strongA_creativity |].
  exact (X1_fallback_scores_in_range halves strongA weakB "a" _
           strongA_valid weakB_valid (or_introl Hlook)).
Defined.

Lemma entries_confidences (a b : R) (e : ModelConsensusScore) :
  e = constantEntry a 0.9 \/ e = constantEntry b 0.9 ->
  exists c1 c2 c3,
    confidenceScores e = [c1; c2; c3]
    /\ in_range 0 1 c1 /\ in_range 0 1 c2 /\ in_range 0 1 c3.
Proof.
  assert (Hc : in_range 0 1 (Fin 0.9)) by (exists 0.9%R; split; [reflexivity | lra]).
  intros [-> | ->]; exists (Fin 0.9), (Fin 0.9), (Fin 0.9); auto.
Qed.

Lemma X3_outcomes_between_half_and_nine_tenths_witness :
  exists po,
    generatePredictiveOutcomes strongA weakB (entries 7 7) = Return po
    /\ dom po = ({["a"; "b"]} ∖ {["__proto__"]} : gset string)
    /\ (forall k p, po !! k = Some p -> in_range 0.5 0.9 p).
Proof.
  assert (La : entries 7 7 !! id strongA = Some (Entry (constantEntry 7 0.9))).
  { apply object2_lookup_1, ab_distinct. }
  assert (Lb : entries 7 7 !! id weakB = Some (Entry (constantEntry 7 0.9))).
  { apply object2_lookup_2. }
  destruct (X3_outcomes_between_half_and_nine_tenths strongA weakB (entries 7 7) _ _
              strongA_valid weakB_valid La Lb (entries_confidences 7 7))
    as (po & Hrun & Hdom & Hrange).
  exists po. auto.
Defined.

Lemma X6_result_confidence_range_witness :
  exists r,
    determineWinner (constantSource 8 0.9) halves modelA modelB = Return r
    /\ in_range 0.5 1 (result_confidence r).
Proof.
  destruct (constant_run 8 0.9 halves) as (vm & cs & _ & _ & _ & _ & Hrun & _).
  eexists. split; [exact Hrun |].
  exact (X6_result_confidence_range (constantSource 8 0.9) halves modelA modelB _ Hrun).
Defined.

Lemma X8_round_raises_confidence_witness :
  exists adjusted a d,
    simulateDiscussionRound disagreeing = Return adjusted
    /\ llm1 adjusted !! "a" = Some a
    /\ confidence a = Fin d
    /\ (0.8 <= d <= 1)%R.
Proof.
  destruct (X8_round_raises_confidence disagreeing (sample_complete _ _ _ _ _ _))
    as (adjusted & Hrun & Hall).
  destruct (sample_a (evaluation 5 0.8) (evaluation 10 0.8) (evaluation 5 0.8)
                     (evaluation 7 0.8) (evaluation 7 0.8) (evaluation 7 0.8))
    as (H1 & _).
  assert (Hle : (0.8 <= 1)%R) by lra.
  destruct (Hall llm1 (or_introl eq_refl) "a" (evaluation 5 0.8) 0.8%R H1 eq_refl Hle)
    as (a & d & Hlook & _ & Hconf & Hbounds).
  exists adjusted, a, d. split; [exact Hrun |]. split; [exact Hlook |].
  split; [exact Hconf |]. exact Hbounds.
Defined.

(** ** A model evaluated in slot 1 only *)

Definition oneSlot : InitialEvaluations :=
  {| llm1 := {["a" := evaluation 7 0.8]}; llm2 := ∅; llm3 := ∅ |}.

Lemma oneSlot_incomplete : ~ has_slots oneSlot "a".
Proof.
  intros (_ & [e He] & _). cbn in He. rewrite lookup_empty in He. discriminate.
Qed.

Lemma a_not_inherited : ("a" : string) ∉ Object_prototype.
Proof. unfold Object_prototype. intros H. by repeat apply elem_of_cons in H as [? | H]; try apply elem_of_nil in H. Qed.

Lemma X9_discussion_needs_three_slots_witness :
  facilitateInteractiveDiscussion oneSlot = Throw TypeError.
Proof.
  assert (Hk : ("a" : string) ∈ dom (llm1 oneSlot)).
  { cbn. rewrite dom_singleton_L. apply elem_of_singleton. reflexivity. }
  exact (X9_discussion_needs_three_slots oneSlot "a" a_not_inherited Hk
           oneSlot_incomplete).
Defined.

Lemma X10_consensus_needs_three_slots_witness :
  calculateConsensusScores
    {| evaluations := oneSlot; discussion_reasoning := AgreementAchieved ∅ |} ["a"]
  = Throw TypeError.
Proof.
  assert (Hin : ("a" : string) ∈ ["a"]) by apply list_elem_of_here.
  exact (X10_consensus_needs_three_slots
           {| evaluations := oneSlot; discussion_reasoning := AgreementAchieved ∅ |}
           ["a"] "a" a_not_inherited Hin oneSlot_incomplete).
Defined.

(** ** Two models with the id ["a"] *)

Lemma X12_same_id_second_wins_witness :
  exists r,
    determineWinner (constantSource 8 0.9) halves strongA modelA = Return r
    /\ winner r = modelA
    /\ dom (scores r) = ({["a"]} : gset string).
Proof.
  assert (Hid : id modelA <> "confidence") by discriminate.
  exact (X12_same_id_second_wins (constantSource 8 0.9) halves strongA modelA
           eq_refl Hid).
Defined.

(** * The discussion and the determination on doubles

    The two stages again, with every number the double the code
    computes.  [+], [-], [*], [/] and the comparisons are the IEEE 754
    operations of Rocq's primitive floats; a decimal literal is the
    double nearest to it, as in JavaScript; [Math.pow(x, 2)] is taken to
    be the correctly rounded square.  The functions follow the source
    as those of the first part do, and every read of a key goes through
    [property]. *)

Module Double.
Import Floats.
#[local] Open Scope float_scope.

(** [Math.pow(x, 2)]: the rounded square. *)
Definition Math_pow2 (x : float) : float := x * x.

(** What [JSON.parse(JSON.stringify(x))] leaves of a number: NaN and the
    infinities become [null], which every later arithmetic use coerces
    to 0; the negative zero is written ["0"]; any other double is
    written with digits that read back as the same double. *)
Definition JSON_roundtrip (x : float) : float :=
  match classify x with
  | NaN | PInf | NInf => 0
  | NZero => 0
  | _ => x
  end.

Definition finite (x : float) : bool :=
  match classify x with
  | NaN | PInf | NInf => false
  | _ => true
  end.

(** [xs.reduce((sum, x) => sum + x, 0)]. *)
Definition sum_numbers (xs : list float) : float := foldl add 0 xs.

Definition array_length {A} (xs : list A) : float :=
  of_uint63 (Uint63.of_Z (Z.of_nat (length xs))).

Record LLMEvaluation : Type := {
  score : float;
  confidence : float;
  reasoning : string
}.

Record InitialEvaluations : Type := {
  llm1 : gmap string LLMEvaluation;
  llm2 : gmap string LLMEvaluation;
  llm3 : gmap string LLMEvaluation
}.

Inductive DiscussionReasoning : Type :=
| DisagreementRefined (varianceByModel : gmap string float)
| AgreementAchieved (varianceByModel : gmap string float).

Record DiscussionResults : Type := {
  evaluations : InitialEvaluations;
  discussion_reasoning : DiscussionReasoning
}.

Record ModelConsensusScore : Type := {
  individualScores : list float;
  confidenceScores : list float;
  weightedScores : list float;
  finalScore : float
}.

Inductive ConsensusValue : Type :=
| Entry (e : ModelConsensusScore)
| Num (x : float).

(** [o[k]] for a plain object [o]: its own property; failing that the
    member inherited from [Object.prototype] when [k] names one; failing
    that [undefined]. *)
Inductive Property (A : Type) : Type :=
| Own (a : A)
| Inherited
| Undefined.
Arguments Own {A} a.
Arguments Inherited {A}.
Arguments Undefined {A}.

Definition property {A} (o : gmap string A) (k : string) : Property A :=
  match o !! k with
  | Some a => Own a
  | None => if bool_decide (k ∈ Object_prototype) then Inherited else Undefined
  end.

(** [p.score] used as a number: an inherited member has no such
    property and the [undefined] read is NaN in arithmetic; reading it
    off [undefined] raises. *)
Definition get_score (p : Property LLMEvaluation) : js_result float :=
  match p with
  | Own e => Return (score e)
  | Inherited => Return nan
  | Undefined => Throw TypeError
  end.

Definition calculateVariance (scores : list float) : float :=
  let mean := sum_numbers scores / array_length scores in
  let squaredDifferences := (fun score => Math_pow2 (score - mean)) <$> scores in
  sum_numbers squaredDifferences / array_length scores.

Definition slotScores (e : InitialEvaluations) (modelId : string)
  : js_result (list float) :=
  let* s1 := get_score (property (llm1 e) modelId) in
  let* s2 := get_score (property (llm2 e) modelId) in
  let* s3 := get_score (property (llm3 e) modelId) in
  Return [s1; s2; s3].

Definition varianceByModel_of (initial : InitialEvaluations)
  : js_result (gmap string float) :=
  forKeys (llm1 initial)
    (fun modelId varianceByModel =>
       let* scores := slotScores initial modelId in
       Return (assign_number modelId (calculateVariance scores) varianceByModel))
    ∅.

Definition deepCopyEvaluation (e : LLMEvaluation) : LLMEvaluation :=
  {| score := JSON_roundtrip (score e);
     confidence := JSON_roundtrip (confidence e);
     reasoning := reasoning e |}.

Definition deepCopy (e : InitialEvaluations) : InitialEvaluations :=
  {| llm1 := deepCopyEvaluation <$> llm1 e;
     llm2 := deepCopyEvaluation <$> llm2 e;
     llm3 := deepCopyEvaluation <$> llm3 e |}.

Definition adjustEvaluation (initialScore mean : float) (adjusted : LLMEvaluation)
  : LLMEvaluation :=
  let adjustmentFactor := 0.4 in
  {| score := initialScore * (1 - adjustmentFactor) + mean * adjustmentFactor;
     confidence := confidence adjusted + (1 - confidence adjusted) * 0.3;
     reasoning := reasoning adjusted |}.

(** The two assignments to one slot of one model.  When the copy has
    no own evaluation under the key the writes land on the inherited
    member, which is no part of the evaluation set. *)
Definition adjustSlot (initial adjusted : gmap string LLMEvaluation)
    (modelId : string) (mean : float) : js_result (gmap string LLMEvaluation) :=
  let* initialScore := get_score (property initial modelId) in
  match property adjusted modelId with
  | Own a => Return (<[modelId := adjustEvaluation initialScore mean a]> adjusted)
  | Inherited => Return adjusted
  | Undefined => Throw TypeError
  end.

Definition simulateDiscussionRound (initialEvaluations : InitialEvaluations)
  : js_result InitialEvaluations :=
  forKeys (llm1 initialEvaluations)
    (fun modelId adjustedEvaluations =>
       let* scores := slotScores initialEvaluations modelId in
       let mean := sum_numbers scores / array_length scores in
       let* adjusted1 :=
         adjustSlot (llm1 initialEvaluations) (llm1 adjustedEvaluations) modelId mean in
       let* adjusted2 :=
         adjustSlot (llm2 initialEvaluations) (llm2 adjustedEvaluations) modelId mean in
       let* adjusted3 :=
         adjustSlot (llm3 initialEvaluations) (llm3 adjustedEvaluations) modelId mean in
       Return {| llm1 := adjusted1; llm2 := adjusted2; llm3 := adjusted3 |})
    (deepCopy initialEvaluations).

(** [Object.values(varianceByModel).some(variance => variance > 2)]. *)
Definition highDisagreement (varianceByModel : gmap string float) : bool :=
  bool_decide (map_Exists (fun _ variance => (2 <? variance) = true) varianceByModel).

Definition facilitateInteractiveDiscussion (initialEvaluations : InitialEvaluations)
  : js_result DiscussionResults :=
  let* varianceByModel := varianceByModel_of initialEvaluations in
  if highDisagreement varianceByModel then
    let* finalEvaluations := simulateDiscussionRound initialEvaluations in
    Return {| evaluations := finalEvaluations;
              discussion_reasoning := DisagreementRefined varianceByModel |}
  else
    Return {| evaluations := initialEvaluations;
              discussion_reasoning := AgreementAchieved varianceByModel |}.

(** [consensusScores[id].finalScore]. *)
Definition get_finalScore (consensusScores : gmap string ConsensusValue)
    (modelId : string) : js_result float :=
  match property consensusScores modelId with
  | Own (Entry e) => Return (finalScore e)
  | Own (Num _) | Inherited => Return nan
  | Undefined => Throw TypeError
  end.

(** [predictiveOutcomes[id]] used as a number. *)
Definition outcome (predictiveOutcomes : gmap string float) (modelId : string) : float :=
  match predictiveOutcomes !! modelId with
  | Some p => p
  | None => nan
  end.

Definition determineWinnerModel (model1 model2 : Model)
    (consensusScores : gmap string ConsensusValue)
    (predictiveOutcomes : gmap string float) : js_result Model :=
  let* consensus1 := get_finalScore consensusScores (id model1) in
  let* consensus2 := get_finalScore consensusScores (id model2) in
  let model1FinalScore :=
    0.7 * consensus1 + 0.3 * outcome predictiveOutcomes (id model1) * 10 in
  let model2FinalScore :=
    0.7 * consensus2 + 0.3 * outcome predictiveOutcomes (id model2) * 10 in
  Return (if model2FinalScore <? model1FinalScore then model1 else model2).

(** ** Sample evaluation sets *)

Definition evaluation (s c : float) : LLMEvaluation :=
  {| score := s; confidence := c; reasoning := "sample" |}.

Definition sampleEvaluations (k1 k2 : string) (a1 a2 a3 b1 b2 b3 : LLMEvaluation)
  : InitialEvaluations :=
  {| llm1 := object2 k1 a1 k2 b1;
     llm2 := object2 k1 a2 k2 b2;
     llm3 := object2 k1 a3 k2 b3 |}.

(** The scores 5, 10, 5 for the first model and 7, 7, 7 for the second. *)
Definition disagreeing (k1 k2 : string) : InitialEvaluations :=
  sampleEvaluations k1 k2
    (evaluation 5 0.8) (evaluation 10 0.8) (evaluation 5 0.8)
    (evaluation 7 0.8) (evaluation 7 0.8) (evaluation 7 0.8).

(** The same score [s] three times for the first model, 7 for the second. *)
Definition agreeing (s : float) : InitialEvaluations :=
  sampleEvaluations "a" "b"
    (evaluation s 0.8) (evaluation s 0.8) (evaluation s 0.8)
    (evaluation 7 0.8) (evaluation 7 0.8) (evaluation 7 0.8).

(** A consensus entry as the consensus stage builds it from the score
    [s] with the confidence 1 in every slot. *)
Definition entry (s : float) : ModelConsensusScore :=
  {| individualScores := [s; s; s];
     confidenceScores := [1; 1; 1];
     weightedScores := [s * 1; s * 1; s * 1];
     finalScore := sum_numbers [s * 1; s * 1; s * 1] / sum_numbers [1; 1; 1] |}.

Definition entries (a b : float) : gmap string ConsensusValue :=
  object2 "a" (Entry (entry a)) "b" (Entry (entry b)).

Definition outcomes (a b : float) : gmap string float :=
  assign_number "b" b (assign_number "a" a ∅).

(** ** Comparisons of doubles *)

Lemma SFcompare_antisym (x y : spec_float) :
  SFcompare y x = option_map CompOpp (SFcompare x y).
Proof.
  destruct x as [s1 | s1 | | s1 m1 e1], y as [s2 | s2 | | s2 m2 e2]; cbn;
    try reflexivity; try (destruct s1; reflexivity); try (destruct s2; reflexivity);
    try (destruct s1, s2; reflexivity).
  destruct s1, s2; try reflexivity; rewrite (Z.compare_antisym e1 e2);
    destruct (e1 ?= e2)%Z eqn:He; cbn; try reflexivity;
    rewrite (Pos.compare_cont_antisym m1 m2 Eq); cbn;
    destruct (Pos.compare_cont Eq m1 m2); reflexivity.
Qed.

Lemma ltb_asym (x y : float) : (x <? y) = true -> (y <? x) = false.
Proof.
  rewrite !ltb_spec. unfold SFltb.
  rewrite (SFcompare_antisym (Prim2SF x) (Prim2SF y)).
  destruct (SFcompare (Prim2SF x) (Prim2SF y)) as [[] |]; cbn; congruence.
Qed.

Lemma ltb_irrefl (x : float) : (x <? x) = false.
Proof.
  destruct (x <? x) eqn:H; [| reflexivity].
  rewrite (ltb_asym _ _ H) in H. discriminate.
Qed.

Lemma eqb_not_ltb (x y : float) : (x =? y) = true -> (y <? x) = false.
Proof.
  rewrite FloatAxioms.eqb_spec, ltb_spec. unfold SFeqb, SFltb.
  rewrite (SFcompare_antisym (Prim2SF x) (Prim2SF y)).
  destruct (SFcompare (Prim2SF x) (Prim2SF y)) as [[] |]; cbn; congruence.
Qed.

Lemma leb_not_ltb (x y : float) : (x <=? y) = true -> (y <? x) = false.
Proof.
  rewrite leb_spec, ltb_spec. unfold SFleb, SFltb.
  rewrite (SFcompare_antisym (Prim2SF x) (Prim2SF y)).
  destruct (SFcompare (Prim2SF x) (Prim2SF y)) as [[] |]; cbn; congruence.
Qed.

(** The negative zero is the only double classified as such. *)
Lemma classify_NZero (x : float) : classify x = NZero -> x = (-0)%float.
Proof.
  intros H. rewrite classify_spec in H. rewrite <- (SF2Prim_Prim2SF x).
  destruct (Prim2SF x) as [[] | [] | | [] m e]; cbn in H;
    try discriminate; try reflexivity;
    match type of H with (if ?c then _ else _) = _ => destruct c; discriminate end.
Qed.

(** The confidence of the copy, raised: a finite confidence gives the
    value the formula gives on the confidence itself, any other 0.3. *)
Lemma raised_confidence (c : float) :
  let copied := JSON_roundtrip c in
  copied + (1 - copied) * 0.3
  = if finite c then c + (1 - c) * 0.3 else 0.3.
Proof.
  unfold JSON_roundtrip, finite. destruct (classify c) eqn:E; cbv zeta; try reflexivity.
  rewrite (classify_NZero c E). reflexivity.
Qed.

(** ** The loops of the discussion stage *)

Definition has_slots (e : InitialEvaluations) (k : string) : Prop :=
  is_Some (llm1 e !! k) /\ is_Some (llm2 e !! k) /\ is_Some (llm3 e !! k).

Definition complete (e : InitialEvaluations) : Prop :=
  dom (llm2 e) = dom (llm1 e) /\ dom (llm3 e) = dom (llm1 e).

Lemma sampleEvaluations_complete (k1 k2 : string) (a1 a2 a3 b1 b2 b3 : LLMEvaluation) :
  complete (sampleEvaluations k1 k2 a1 a2 a3 b1 b2 b3).
Proof. unfold complete. cbn. rewrite !object2_dom. auto. Qed.

Lemma complete_slots (e : InitialEvaluations) (k : string) :
  complete e -> k ∈ dom (llm1 e) -> has_slots e k.
Proof.
  intros [H2 H3] Hk. unfold has_slots.
  rewrite <- !elem_of_dom, H2, H3. auto.
Qed.

Lemma property_Own {A} (o : gmap string A) (k : string) (a : A) :
  o !! k = Some a -> property o k = Own a.
Proof. intros H. unfold property. rewrite H. reflexivity. Qed.

Lemma slotScores_Own (e : InitialEvaluations) (k : string) (e1 e2 e3 : LLMEvaluation) :
  llm1 e !! k = Some e1 -> llm2 e !! k = Some e2 -> llm3 e !! k = Some e3 ->
  slotScores e k = Return [score e1; score e2; score e3].
Proof.
  intros H1 H2 H3. unfold slotScores.
  rewrite (property_Own _ _ _ H1), (property_Own _ _ _ H2), (property_Own _ _ _ H3).
  reflexivity.
Qed.

(** The variance a model's three own evaluations give. *)
Definition varianceOf (e1 e2 e3 : LLMEvaluation) : float :=
  calculateVariance [score e1; score e2; score e3].

(** What the variance object holds after the models [visited]: the
    variance of each of them but ["__proto__"]. *)
Definition varianceInvariant (e : InitialEvaluations) (visited : gset string)
    (vm : gmap string float) : Prop :=
  forall k,
    match vm !! k with
    | Some v =>
        k ∈ visited /\ k <> "__proto__"
        /\ exists e1 e2 e3,
             llm1 e !! k = Some e1 /\ llm2 e !! k = Some e2 /\ llm3 e !! k = Some e3
             /\ v = varianceOf e1 e2 e3
    | None => k ∉ visited \/ k = "__proto__"
    end.

Lemma varianceByModel_of_complete (e : InitialEvaluations) :
  complete e ->
  exists vm, varianceByModel_of e = Return vm /\ varianceInvariant e (dom (llm1 e)) vm.
Proof.
  intros Hc. unfold varianceByModel_of.
  apply (forKeys_invariant (llm1 e) _ ∅ (varianceInvariant e)).
  - intros k. rewrite lookup_empty. left. set_solver.
  - intros k visited vm Hk Hnew Hinv.
    destruct (complete_slots e k Hc Hk) as ([e1 H1] & [e2 H2] & [e3 H3]).
    rewrite (slotScores_Own e k e1 e2 e3 H1 H2 H3). cbn [bind].
    eexists; split; [reflexivity |]. unfold assign_number.
    intros k'. specialize (Hinv k').
    destruct (decide (k = "__proto__")) as [-> | Hproto].
    + destruct (vm !! k') as [v |].
      * destruct Hinv as (Hin & Hne & Hv). split; [set_solver | auto].
      * destruct Hinv as [Hout | ->]; [| auto].
        destruct (decide (k' = "__proto__")) as [-> | Hne]; [auto |].
        left. set_solver.
    + rewrite lookup_insert. case_decide as Hkk.
      * subst k'. split; [set_solver |]. split; [exact Hproto |].
        exists e1, e2, e3. auto.
      * destruct (vm !! k') as [v |].
        -- destruct Hinv as (Hin & Hne & Hv). split; [set_solver | auto].
        -- destruct Hinv as [Hout | ->]; [| auto]. left. set_solver.
Qed.

Definition meanScore (e : InitialEvaluations) (k : string) : float :=
  match slotScores e k with
  | Return scores => sum_numbers scores / array_length scores
  | Throw _ => nan
  end.

(** What the round makes of one evaluation. *)
Definition roundEvaluation (mean : float) (e : LLMEvaluation) : LLMEvaluation :=
  adjustEvaluation (score e) mean (deepCopyEvaluation e).

Definition roundInvariant (e : InitialEvaluations) (visited : gset string)
    (adjusted : InitialEvaluations) : Prop :=
  forall k,
    let f := if decide (k ∈ visited) then roundEvaluation (meanScore e k)
             else deepCopyEvaluation in
    llm1 adjusted !! k = f <$> llm1 e !! k
    /\ llm2 adjusted !! k = f <$> llm2 e !! k
    /\ llm3 adjusted !! k = f <$> llm3 e !! k.

Lemma adjustSlot_Own (initial adjusted : gmap string LLMEvaluation) (k : string)
    (mean : float) (i : LLMEvaluation) :
  initial !! k = Some i -> adjusted !! k = Some (deepCopyEvaluation i) ->
  adjustSlot initial adjusted k mean = Return (<[k := roundEvaluation mean i]> adjusted).
Proof.
  intros Hi Ha. unfold adjustSlot.
  rewrite (property_Own _ _ _ Hi), (property_Own _ _ _ Ha). reflexivity.
Qed.

Lemma simulateDiscussionRound_complete (e : InitialEvaluations) :
  complete e ->
  exists adjusted,
    simulateDiscussionRound e = Return adjusted
    /\ roundInvariant e (dom (llm1 e)) adjusted.
Proof.
  intros Hc. unfold simulateDiscussionRound.
  apply (forKeys_invariant (llm1 e) _ (deepCopy e) (roundInvariant e)).
  - intros k. cbn. rewrite decide_False by set_solver.
    rewrite !lookup_fmap. auto.
  - intros k visited adjusted Hk Hnew Hinv.
    destruct (complete_slots e k Hc Hk) as ([e1 H1] & [e2 H2] & [e3 H3]).
    destruct (Hinv k) as (A1 & A2 & A3). cbn in A1, A2, A3.
    rewrite decide_False in A1, A2, A3 by assumption.
    rewrite H1 in A1. rewrite H2 in A2. rewrite H3 in A3. cbn in A1, A2, A3.
    rewrite (slotScores_Own e k e1 e2 e3 H1 H2 H3). cbn [bind].
    rewrite (adjustSlot_Own _ _ k _ e1 H1 A1). cbn [bind].
    rewrite (adjustSlot_Own _ _ k _ e2 H2 A2). cbn [bind].
    rewrite (adjustSlot_Own _ _ k _ e3 H3 A3). cbn [bind].
    eexists; split; [reflexivity |].
    intros k'. cbn. rewrite !lookup_insert.
    destruct (decide (k = k')) as [<- | Hne].
    + rewrite decide_True by (apply elem_of_union_l, elem_of_singleton; reflexivity).
      unfold meanScore. rewrite (slotScores_Own e k e1 e2 e3 H1 H2 H3).
      rewrite H1, H2, H3. auto.
    + destruct (Hinv k') as (B1 & B2 & B3). cbn in B1, B2, B3.
      destruct (decide (k' ∈ visited)) as [Hin | Hout].
      * rewrite decide_True by set_solver. auto.
      * rewrite decide_False
          by (intros [Heq%elem_of_singleton | Hv]%elem_of_union; congruence).
        auto.
Qed.

Lemma roundInvariant_slot (e adjusted : InitialEvaluations) (k : string) :
  complete e -> roundInvariant e (dom (llm1 e)) adjusted ->
  forall slot : InitialEvaluations -> gmap string LLMEvaluation,
    slot = llm1 \/ slot = llm2 \/ slot = llm3 ->
    forall e0, slot e !! k = Some e0 ->
      slot adjusted !! k = Some (roundEvaluation (meanScore e k) e0).
Proof.
  intros [C2 C3] Hinv slot Hslot e0 Hlook.
  assert (Hk : k ∈ dom (llm1 e)).
  { destruct Hslot as [-> | [-> | ->]];
      [| rewrite <- C2 | rewrite <- C3]; apply elem_of_dom; eauto. }
  destruct (Hinv k) as (A1 & A2 & A3). cbn in A1, A2, A3.
  rewrite decide_True in A1, A2, A3 by exact Hk.
  destruct Hslot as [-> | [-> | ->]];
    [rewrite A1 | rewrite A2 | rewrite A3]; rewrite Hlook; reflexivity.
Qed.

(** The two branches of the stage, on a complete evaluation set. *)
Lemma facilitateInteractiveDiscussion_complete (e : InitialEvaluations) :
  complete e ->
  exists vm,
    varianceInvariant e (dom (llm1 e)) vm
    /\ ((highDisagreement vm = true
         /\ exists adjusted,
              roundInvariant e (dom (llm1 e)) adjusted
              /\ facilitateInteractiveDiscussion e
                 = Return {| evaluations := adjusted;
                             discussion_reasoning := DisagreementRefined vm |})
        \/ (highDisagreement vm = false
            /\ facilitateInteractiveDiscussion e
               = Return {| evaluations := e;
                           discussion_reasoning := AgreementAchieved vm |})).
Proof.
  intros Hc.
  destruct (varianceByModel_of_complete e Hc) as (vm & Hvm & Hinv).
  exists vm. split; [exact Hinv |].
  unfold facilitateInteractiveDiscussion. rewrite Hvm. cbn [bind].
  destruct (highDisagreement vm) eqn:Hhigh.
  - left. split; [reflexivity |].
    destruct (simulateDiscussionRound_complete e Hc) as (adjusted & -> & Hround).
    exists adjusted. auto.
  - right. auto.
Qed.

End Double.

Import PrimFloat.
#[local] Open Scope float_scope.

(** ** Determination *)

(** C4: [determineWinnerModel] compares
    [0.7 * finalScore + 0.3 * predictiveOutcome * 10] of the two models,
    as computed in doubles; it returns the first model when its value is
    strictly greater, and the second model when the second's is strictly
    greater or the two are equal. *)
Theorem C4_tie_goes_to_second (model1 model2 : Model)
    (consensusScores : gmap string Double.ConsensusValue)
    (predictiveOutcomes : gmap string float) (e1 e2 : Double.ModelConsensusScore) :
  consensusScores !! id model1 = Some (Double.Entry e1) ->
  consensusScores !! id model2 = Some (Double.Entry e2) ->
  let score1 :=
    0.7 * Double.finalScore e1 + 0.3 * Double.outcome predictiveOutcomes (id model1) * 10 in
  let score2 :=
    0.7 * Double.finalScore e2 + 0.3 * Double.outcome predictiveOutcomes (id model2) * 10 in
  exists w,
    Double.determineWinnerModel model1 model2 consensusScores predictiveOutcomes = Return w
    /\ ((score2 <? score1) = true -> w = model1)
    /\ ((score1 <? score2) = true -> w = model2)
    /\ ((score1 =? score2) = true -> w = model2)
    /\ (score1 = score2 -> w = model2).
Proof.
  intros H1 H2 score1 score2.
  unfold Double.determineWinnerModel, Double.get_finalScore.
  rewrite (Double.property_Own _ _ _ H1), (Double.property_Own _ _ _ H2).
  cbn [bind]. fold score1 score2.
  eexists. split; [reflexivity |].
  split; [| split; [| split]].
  - intros ->. reflexivity.
  - intros Hlt. rewrite (Double.ltb_asym _ _ Hlt). reflexivity.
  - intros Heq. rewrite (Double.eqb_not_ltb _ _ Heq). reflexivity.
  - intros ->. rewrite Double.ltb_irrefl. reflexivity.
Qed.

(** Final scores 10 and 7 with outcomes 0.1 and 0.8: the first model
    wins on 7.3 against 7.299999999999999, two values that exact
    arithmetic would make equal.  Final scores 8 and 7 with outcomes 0.2
    and 0.9: the second model wins on 7.6 against 6.2, by its outcome.
    Final scores 7 and 7 with outcomes 0.5 and 0.5: a tie, and the second
    model wins. *)
Lemma C4_tie_goes_to_second_witness :
  Double.determineWinnerModel modelA modelB
    (Double.entries 10 7) (Double.outcomes 0.1 0.8) = Return modelA
  /\ Double.determineWinnerModel modelA modelB
       (Double.entries 8 7) (Double.outcomes 0.2 0.9) = Return modelB
  /\ Double.determineWinnerModel modelA modelB
       (Double.entries 7 7) (Double.outcomes 0.5 0.5) = Return modelB.
Proof.
  assert (La : forall a b,
            Double.entries a b !! id modelA = Some (Double.Entry (Double.entry a))).
  { intros a b. apply object2_lookup_1, ab_distinct. }
  assert (Lb : forall a b,
            Double.entries a b !! id modelB = Some (Double.Entry (Double.entry b))).
  { intros a b. apply object2_lookup_2. }
  split; [| split].
  - destruct (C4_tie_goes_to_second modelA modelB (Double.entries 10 7)
                (Double.outcomes 0.1 0.8) _ _ (La 10 7) (Lb 10 7))
      as (w & Hrun & Hfirst & _).
    rewrite Hrun. f_equal. apply Hfirst. vm_compute. reflexivity.
  - destruct (C4_tie_goes_to_second modelA modelB (Double.entries 8 7)
                (Double.outcomes 0.2 0.9) _ _ (La 8 7) (Lb 8 7))
      as (w & Hrun & _ & Hsecond & _).
    rewrite Hrun. f_equal. apply Hsecond. vm_compute. reflexivity.
  - destruct (C4_tie_goes_to_second modelA modelB (Double.entries 7 7)
                (Double.outcomes 0.5 0.5) _ _ (La 7 7) (Lb 7 7))
      as (w & Hrun & _ & _ & Htie & _).
    rewrite Hrun. f_equal. apply Htie. vm_compute. reflexivity.
Defined.

(** ** The discussion stage *)

(** C5, where the code falls short of it: the scores 5, 10, 5 of a model
    named ["__proto__"] have a variance above 2, yet the stage returns
    the evaluation set it was given and reports agreement: the variance
    of that model was never stored, so the test sees the variance 0 of
    the other model alone. *)
Theorem C5_disagreement_on_proto_is_not_seen :
  Double.slotScores (Double.disagreeing "__proto__" "b") "__proto__" = Return [5; 10; 5]
  /\ (2 <? Double.calculateVariance [5; 10; 5]) = true
  /\ Double.facilitateInteractiveDiscussion (Double.disagreeing "__proto__" "b")
     = Return {| Double.evaluations := Double.disagreeing "__proto__" "b";
                 Double.discussion_reasoning := Double.AgreementAchieved {["b" := 0]} |}.
Proof. repeat split; vm_compute; reflexivity. Qed.

(** C7, as the code has it: when the variance the code computes is at
    most 2 for every model (the one named ["__proto__"], whose variance
    is never stored, aside), the discussion stage returns the
    evaluation set it was given, every score and confidence as it was. *)
Theorem C7_discussion_frame (e : Double.InitialEvaluations) :
  Double.complete e ->
  (forall k e1 e2 e3,
     k <> "__proto__" ->
     Double.llm1 e !! k = Some e1 -> Double.llm2 e !! k = Some e2 ->
     Double.llm3 e !! k = Some e3 ->
     (Double.calculateVariance [Double.score e1; Double.score e2; Double.score e3] <=? 2)
     = true) ->
  exists vm,
    Double.facilitateInteractiveDiscussion e
    = Return {| Double.evaluations := e;
                Double.discussion_reasoning := Double.AgreementAchieved vm |}.
Proof.
  intros Hc Hlow.
  destruct (Double.facilitateInteractiveDiscussion_complete e Hc)
    as (vm & Hinv & [(Hhigh & _) | (_ & Hrun)]).
  - exfalso. unfold Double.highDisagreement in Hhigh.
    apply bool_decide_eq_true in Hhigh as (k & v & Hk & Hgt).
    specialize (Hinv k). rewrite Hk in Hinv.
    destruct Hinv as (_ & Hne & e1 & e2 & e3 & H1 & H2 & H3 & ->).
    unfold Double.varianceOf in Hgt.
    rewrite (Double.leb_not_ltb _ _ (Hlow k e1 e2 e3 Hne H1 H2 H3)) in Hgt.
    discriminate.
  - exists vm. exact Hrun.
Qed.

(** C7 as stated fails in doubles: the variance the code computes for
    the three equal scores 6.1 is not 0, it is 7.888609052210118e-31. *)
Lemma C7_variance_of_equal_scores_is_not_zero :
  Double.calculateVariance [6.1; 6.1; 6.1] = 7.8886090522101181e-31
  /\ (0 <? Double.calculateVariance [6.1; 6.1; 6.1]) = true
  /\ Double.calculateVariance [6.1; 6.1; 6.1] <> 0.
Proof.
  assert (H : (0 <? Double.calculateVariance [6.1; 6.1; 6.1]) = true)
    by (vm_compute; reflexivity).
  split; [vm_compute; reflexivity |]. split; [exact H |].
  intros Hzero. rewrite Hzero in H. vm_compute in H. discriminate.
Qed.

Lemma agreeing_lookup (s : float) (k : string) (e1 e2 e3 : Double.LLMEvaluation) :
  Double.llm1 (Double.agreeing s) !! k = Some e1 ->
  Double.llm2 (Double.agreeing s) !! k = Some e2 ->
  Double.llm3 (Double.agreeing s) !! k = Some e3 ->
  [Double.score e1; Double.score e2; Double.score e3] = [s; s; s]
  \/ [Double.score e1; Double.score e2; Double.score e3] = [7; 7; 7].
Proof.
  unfold Double.agreeing, Double.sampleEvaluations.
  cbn [Double.llm1 Double.llm2 Double.llm3]. unfold object2.
  rewrite !lookup_insert.
  destruct (decide ("b" = k)) as [<- | Hb].
  - intros [= <-] [= <-] [= <-]. auto.
  - destruct (decide ("a" = k)) as [<- | Ha].
    + intros [= <-] [= <-] [= <-]. auto.
    + rewrite lookup_empty. discriminate.
Qed.

(** The equal scores 6.1 and 7: the stage returns the set as it was,
    though the first variance it computes is not 0. *)
Lemma C7_discussion_frame_witness :
  exists vm,
    Double.facilitateInteractiveDiscussion (Double.agreeing 6.1)
    = Return {| Double.evaluations := Double.agreeing 6.1;
                Double.discussion_reasoning := Double.AgreementAchieved vm |}.
Proof.
  apply (C7_discussion_frame (Double.agreeing 6.1)
           (Double.sampleEvaluations_complete _ _ _ _ _ _ _ _)).
  intros k e1 e2 e3 _ H1 H2 H3.
  destruct (agreeing_lookup 6.1 k e1 e2 e3 H1 H2 H3) as [-> | ->];
    vm_compute; reflexivity.
Defined.

(** X18: when the variance the code computes exceeds 2 for some model
    not named ["__proto__"], the stage returns the set one round
    produces: every evaluation of every model holds the score
    [oldScore * 0.6 + mean * 0.4], the mean being that of the model's
    three scores before the round, the confidence
    [oldConfidence + (1 - oldConfidence) * 0.3] when the old confidence
    is finite and 0.3 when it is not, and its reasoning as it was. *)
Theorem X18_round_on_disagreement (e : Double.InitialEvaluations) :
  Double.complete e ->
  (exists k e1 e2 e3,
     k <> "__proto__"
     /\ Double.llm1 e !! k = Some e1 /\ Double.llm2 e !! k = Some e2
     /\ Double.llm3 e !! k = Some e3
     /\ (2 <? Double.calculateVariance [Double.score e1; Double.score e2; Double.score e3])
        = true) ->
  exists dr vm,
    Double.facilitateInteractiveDiscussion e = Return dr
    /\ Double.discussion_reasoning dr = Double.DisagreementRefined vm
    /\ forall k e1 e2 e3,
         Double.llm1 e !! k = Some e1 -> Double.llm2 e !! k = Some e2 ->
         Double.llm3 e !! k = Some e3 ->
         let mean := (0 + Double.score e1 + Double.score e2 + Double.score e3) / 3 in
         let rounded (old : Double.LLMEvaluation) :=
           {| Double.score := Double.score old * 0.6 + mean * 0.4;
              Double.confidence :=
                if Double.finite (Double.confidence old)
                then Double.confidence old + (1 - Double.confidence old) * 0.3
                else 0.3;
              Double.reasoning := Double.reasoning old |} in
         Double.llm1 (Double.evaluations dr) !! k = Some (rounded e1)
         /\ Double.llm2 (Double.evaluations dr) !! k = Some (rounded e2)
         /\ Double.llm3 (Double.evaluations dr) !! k = Some (rounded e3).
Proof.
  intros Hc (k0 & a1 & a2 & a3 & Hne & K1 & K2 & K3 & Hgt).
  destruct (Double.facilitateInteractiveDiscussion_complete e Hc)
    as (vm & Hinv & [(_ & adjusted & Hround & Hrun) | (Hlow & _)]).
  - eexists; exists vm. split; [exact Hrun |]. split; [reflexivity |].
    intros k e1 e2 e3 H1 H2 H3 mean rounded. cbn [Double.evaluations].
    assert (Hrounded : forall old,
              Double.roundEvaluation (Double.meanScore e k) old = rounded old).
    { intros old. unfold Double.roundEvaluation, Double.adjustEvaluation,
        Double.deepCopyEvaluation, Double.meanScore, rounded.
      rewrite (Double.slotScores_Own e k e1 e2 e3 H1 H2 H3).
      cbn [Double.score Double.confidence Double.reasoning].
      rewrite Double.raised_confidence. reflexivity. }
    rewrite <- !Hrounded.
    split; [| split];
      apply (Double.roundInvariant_slot e adjusted k Hc Hround); auto.
  - exfalso. unfold Double.highDisagreement in Hlow.
    apply bool_decide_eq_false in Hlow. apply Hlow.
    specialize (Hinv k0).
    destruct (vm !! k0) as [v |] eqn:Hv.
    + destruct Hinv as (_ & _ & b1 & b2 & b3 & L1 & L2 & L3 & ->).
      exists k0. eexists. split; [exact Hv |].
      rewrite K1 in L1. rewrite K2 in L2. rewrite K3 in L3.
      injection L1 as <-. injection L2 as <-. injection L3 as <-. exact Hgt.
    + destruct Hinv as [Hout | Heq]; [| contradiction].
      exfalso. apply Hout. apply elem_of_dom. eauto.
Qed.

Lemma disagreeing_a :
  Double.llm1 (Double.disagreeing "a" "b") !! "a" = Some (Double.evaluation 5 0.8)
  /\ Double.llm2 (Double.disagreeing "a" "b") !! "a" = Some (Double.evaluation 10 0.8)
  /\ Double.llm3 (Double.disagreeing "a" "b") !! "a" = Some (Double.evaluation 5 0.8).
Proof. repeat split; apply object2_lookup_1, ab_distinct. Qed.

(** The scores 5, 10, 5 with confidence 0.8: the round gives
    5.666666666666667, 8.666666666666668, 5.666666666666667 and the
    confidence 0.86. *)
Lemma X18_round_on_disagreement_witness :
  exists dr,
    Double.facilitateInteractiveDiscussion (Double.disagreeing "a" "b") = Return dr
    /\ Double.llm1 (Double.evaluations dr) !! "a"
       = Some (Double.evaluation 5.666666666666667 0.86)
    /\ Double.llm2 (Double.evaluations dr) !! "a"
       = Some (Double.evaluation 8.6666666666666679 0.86)
    /\ Double.llm3 (Double.evaluations dr) !! "a"
       = Some (Double.evaluation 5.666666666666667 0.86).
Proof.
  destruct disagreeing_a as (H1 & H2 & H3).
  assert (Hne : "a" <> "__proto__") by discriminate.
  assert (Hgt : (2 <? Double.calculateVariance [5; 10; 5]) = true)
    by (vm_compute; reflexivity).
  destruct (X18_round_on_disagreement (Double.disagreeing "a" "b")
              (Double.sampleEvaluations_complete _ _ _ _ _ _ _ _)
              (ex_intro _ "a" (ex_intro _ _ (ex_intro _ _ (ex_intro _ _
                 (conj Hne (conj H1 (conj H2 (conj H3 Hgt)))))))))
    as (dr & vm & Hrun & _ & Hall).
  destruct (Hall "a" _ _ _ H1 H2 H3) as (A1 & A2 & A3).
  exists dr. rewrite A1, A2, A3. split; [exact Hrun |].
  repeat split; vm_compute; reflexivity.
Defined.



